(** * The Bot of the machine-collaboration-utility: lifecycle state machine,
      job streaming and reply validation.

    A shallow embedding of [class Bot] (src/unnamed/part_000).  JavaScript
    strings are [string]s of 8-bit code units; the mutable [this] of the class
    is the record [Bot], threaded through a state-and-exception monad in which
    a thrown value leaves the mutations made so far in place, as in
    JavaScript. *)

From Stdlib Require Import String Ascii List Bool Arith NArith ZArith Lia DecimalString.
Import ListNotations.
Local Open Scope string_scope.
Local Open Scope list_scope.

(* ===================================================================== *)
(** ** JavaScript strings *)
(* ===================================================================== *)

Module Js.

Definition LF : ascii := ascii_of_nat 10.
Definition CR : ascii := ascii_of_nat 13.
Definition NEL : ascii := ascii_of_nat 133.          (* \u0085 *)
Definition dquote : string := String (ascii_of_nat 34) EmptyString.
Definition chr (c : ascii) : string := String c EmptyString.

(** [s.split(sep)] for a one-character separator: the segments between
    the occurrences of [sep]; never the empty array. *)
Fixpoint split (sep : ascii) (s : string) : list string :=
  match s with
  | EmptyString => [EmptyString]
  | String c rest =>
      if Ascii.eqb c sep then EmptyString :: split sep rest
      else match split sep rest with
           | seg :: segs => String c seg :: segs
           | [] => [String c EmptyString]
           end
  end.

(** [array[0]]: [undefined] on the empty array. *)
Definition first {A} (l : list A) : option A := hd_error l.

(** underscore's [_.last(array)]: [array[array.length - 1]],
    [undefined] on the empty array. *)
Fixpoint last {A} (l : list A) : option A :=
  match l with
  | [] => None
  | [x] => Some x
  | _ :: l' => last l'
  end.

(** [x === 'literal'] where [x] may be [undefined]. *)
Definition strict_eq (x : option string) (lit : string) : bool :=
  match x with
  | Some s => String.eqb s lit
  | None => false
  end.

(** [s.split(re)] for the line-break patterns of the sources, on a
    string of 8-bit code units: a CR LF pair is one separator, and so is
    every other CR or LF and every character in [other].  The pre-scan's
    [/\r\n|[\n\r\u0085\u2028\u2029]/g] has [other] = NEL (\u2028 and
    \u2029 are not 8-bit code units). *)
Fixpoint split_breaks (other : ascii -> bool) (s : string) : list string :=
  match s with
  | EmptyString => [EmptyString]
  | String c rest =>
      if Ascii.eqb c CR then
        match rest with
        | String c' rest' =>
            if Ascii.eqb c' LF then EmptyString :: split_breaks other rest'
            else EmptyString :: split_breaks other rest
        | EmptyString => EmptyString :: split_breaks other rest
        end
      else if Ascii.eqb c LF || other c then
        EmptyString :: split_breaks other rest
      else match split_breaks other rest with
           | seg :: segs => String c seg :: segs
           | [] => [String c EmptyString]
           end
  end.

End Js.

(* ===================================================================== *)
(** ** The state table handed to [StateMachine.create] (part_000:48-87) *)
(* ===================================================================== *)

Inductive State : Type :=
| unavailable | detecting | ready | connecting | connected
| startingJob | processingJob | stopping | processingGcode | disconnecting.

Definition state_name (s : State) : string :=
  match s with
  | unavailable => "unavailable" | detecting => "detecting"
  | ready => "ready" | connecting => "connecting"
  | connected => "connected" | startingJob => "startingJob"
  | processingJob => "processingJob" | stopping => "stopping"
  | processingGcode => "processingGcode"
  | disconnecting => "disconnecting"
  end.

Definition State_eqb (a b : State) : bool :=
  match a, b with
  | unavailable, unavailable | detecting, detecting | ready, ready
  | connecting, connecting | connected, connected
  | startingJob, startingJob | processingJob, processingJob
  | stopping, stopping | processingGcode, processingGcode
  | disconnecting, disconnecting => true
  | _, _ => false
  end.

(** The event names; they live in a module of their own because the Bot has
    methods of the same names. *)
Module Ev.
Inductive Event : Type :=
| detect | detectFail | detectDone
| connect | connectFail | connectDone
| start | startFail | startDone
| stop | stopDone | stopFail
| jobToGcode | jobGcodeFail | jobGcodeDone
| connectedToGcode | connectedGcodeFail | connectedGcodeDone
| disconnect | disconnectFail | disconnectDone
| unplug.

Definition name (e : Event) : string :=
  match e with
  | detect => "detect" | detectFail => "detectFail"
  | detectDone => "detectDone"
  | connect => "connect" | connectFail => "connectFail"
  | connectDone => "connectDone"
  | start => "start" | startFail => "startFail" | startDone => "startDone"
  | stop => "stop" | stopDone => "stopDone" | stopFail => "stopFail"
  | jobToGcode => "jobToGcode" | jobGcodeFail => "jobGcodeFail"
  | jobGcodeDone => "jobGcodeDone"
  | connectedToGcode => "connectedToGcode"
  | connectedGcodeFail => "connectedGcodeFail"
  | connectedGcodeDone => "connectedGcodeDone"
  | disconnect => "disconnect" | disconnectFail => "disconnectFail"
  | disconnectDone => "disconnectDone"
  | unplug => "unplug"
  end.

Definition eqb (a b : Event) : bool := String.eqb (name a) (name b).
End Ev.

(** The [from] of an edge: a state, or the wildcard ['*']. *)
Inductive From : Type :=
| At (s : State)
| Wildcard.

Definition From_eqb (a b : From) : bool :=
  match a, b with
  | At s, At s' => State_eqb s s'
  | Wildcard, Wildcard => true
  | _, _ => false
  end.

Record Edge : Type := edge { name : Ev.Event; from : From; to : State }.

(** [events: [...]], in the order of the source. *)
Definition events : list Edge :=
  [ edge Ev.detect             (At unavailable)     detecting
  ; edge Ev.detectFail         (At detecting)       unavailable
  ; edge Ev.detectDone         (At detecting)       ready
  ; edge Ev.connect            (At ready)           connecting
  ; edge Ev.connectFail        (At connecting)      ready
  ; edge Ev.connectDone        (At connecting)      connected
  ; edge Ev.start              (At connected)       startingJob
  ; edge Ev.startFail          (At startingJob)     connected
  ; edge Ev.startDone          (At startingJob)     processingJob
  ; edge Ev.stop               (At processingJob)   stopping
  ; edge Ev.stopDone           (At stopping)        connected
  ; edge Ev.stopFail           (At stopping)        connected
  ; edge Ev.jobToGcode         (At processingJob)   processingGcode
  ; edge Ev.jobGcodeFail       (At processingGcode) processingJob
  ; edge Ev.jobGcodeDone       (At processingGcode) processingJob
  ; edge Ev.connectedToGcode   (At connected)       processingGcode
  ; edge Ev.connectedGcodeFail (At processingGcode) connected
  ; edge Ev.connectedGcodeDone (At processingGcode) connected
  ; edge Ev.disconnect         (At connected)       disconnecting
  ; edge Ev.disconnectFail     (At disconnecting)   connected
  ; edge Ev.disconnectDone     (At disconnecting)   ready
  ; edge Ev.unplug             Wildcard             unavailable
  ].

(* ===================================================================== *)
(** ** The dispatch of the javascript-state-machine package *)
(* ===================================================================== *)

(** [StateMachine] is the third-party package javascript-state-machine
    (part_000:4), in the 2.x line that has [StateMachine.create]; it is not
    among the repository's files.  This module is its dispatch, as the
    package defines and documents it: [create] folds the edges into a map
    [event -> from -> to]; an event method looks the current state up, then
    the wildcard; an event that cannot fire calls the [error] callback; an
    event whose target is the current state runs the before/after event
    callbacks only and returns [NOTRANSITION]; any other sets [current] and
    runs the enter-state callbacks, returning [SUCCEEDED]. *)
Module StateMachine.

Inductive Result : Type := SUCCEEDED | NOTRANSITION.

Definition Map : Type := Ev.Event -> From -> option State.

(** [map[e.name][e.from] = e.to] *)
Definition add (map : Map) (e : Edge) : Map :=
  fun n f =>
    if Ev.eqb n (name e) && From_eqb f (from e) then Some (to e)
    else map n f.

Definition create (evs : list Edge) : Map :=
  fold_left add evs (fun _ _ => None).

(** [fsm.can(event)] when no transition is pending. *)
Definition can (map : Map) (current : State) (ev : Ev.Event) : bool :=
  match map ev (At current), map ev Wildcard with
  | None, None => false
  | _, _ => true
  end.

(** [to = map[from] || map['*'] || from] *)
Definition target (map : Map) (current : State) (ev : Ev.Event) : State :=
  match map ev (At current) with
  | Some t => t
  | None => match map ev Wildcard with
            | Some t => t
            | None => current
            end
  end.

Inductive Dispatch : Type :=
| Inappropriate                  (* this.error(name, from, ...) *)
| NoTransition                   (* from === to *)
| Enter (to : State).            (* current = to; enter-state callbacks *)

Definition dispatch (map : Map) (current : State) (ev : Ev.Event)
  : Dispatch :=
  if negb (can map current ev) then Inappropriate
  else
    let t := target map current ev in
    if State_eqb current t then NoTransition else Enter t.

End StateMachine.

(** The edge the table declares for an event fired in a state, if any. *)
Definition declared (s : State) (ev : Ev.Event) (e : Edge) : Prop :=
  In e events /\ name e = ev /\ (from e = At s \/ from e = Wildcard).

(* ===================================================================== *)
(** ** Exceptions *)
(* ===================================================================== *)

Inductive Exn : Type :=
| Thrown (message : string)      (* [throw errorMessage] *)
| TypeError (property : string)  (* a property read off [undefined] *)
| Failure (what : string).       (* raised inside a collaborator *)

Inductive Outcome (A : Type) : Type :=
| Ok (a : A)
| Throw (e : Exn).
Arguments Ok {A} a.
Arguments Throw {A} e.


(* ===================================================================== *)
(** ** The objects the Bot holds *)
(* ===================================================================== *)

(** The usb device descriptor ([this.device]). *)
Record DeviceDescriptor : Type := {
  bLength : N; bDescriptorType : N; bcdUSB : N; bDeviceClass : N;
  bDeviceSubClass : N; bDeviceProtocol : N; bMaxPacketSize0 : N;
  idVendor : N; idProduct : N; bcdDevice : N; iManufacturer : N;
  iProduct : N; iSerialNumber : N; bNumConfigurations : N
}.

Record Device : Type := {
  busNumber : N;
  deviceAddress : N;
  deviceDescriptor : DeviceDescriptor;
  portNumbers : list N
}.

(** What is handed to [queueCommands]: a line of gcode, or a directive
    object such as [{ open: true }]. *)
Inductive Payload : Type :=
| Gcode (text : string)
| Open.

(** [new SerialCommandExecutor(port, baudrate, openPrime)] *)
Record SerialCommandExecutor : Type := {
  executor_port : option string;
  executor_baudrate : N;
  executor_openPrime : string
}.

(** Modelled from the spec: the CommandQueue class (./commandQueue3) is not
    among the sources.  "queueCommands(payload): accepts raw command text or
    a control directive; appends a QueueEntry", the queue holding its
    entries "in strict FIFO order".  [entries] is what has been handed to
    [queueCommands], oldest first. *)
Record CommandQueue : Type := {
  executor : SerialCommandExecutor;
  entries : list Payload
}.

Definition CommandQueue_queueCommands (p : Payload) (q : CommandQueue)
  : CommandQueue :=
  {| executor := executor q; entries := entries q ++ [p] |}.

(** Modelled from the spec: the Job class is not among the sources.  A Job
    has a "file identifier, its own run-state
    (running/paused/completed/canceled), an elapsed-time tracker"; the Bot
    reads [job.fileId] and [job.fsm.current] and calls [job.fsm.complete()]
    and [job.stopwatch.stop()]. *)
Inductive JobState : Type := running | paused | completed | canceled.

Record Job : Type := {
  fileId : string;
  job_fsm : JobState;
  stopwatch_running : bool
}.

Definition Job_complete (j : Job) : Job :=
  {| fileId := fileId j; job_fsm := completed;
     stopwatch_running := stopwatch_running j |}.

Definition Job_stopwatch_stop (j : Job) : Job :=
  {| fileId := fileId j; job_fsm := job_fsm j; stopwatch_running := false |}.

(** The line source of the third-party package line-by-line (part_000:3),
    which is not among the repository's files, as the package defines it:
    the stream's chunks are cut at LF, CR LF and CR; the piece after the last
    break of a chunk is carried over to the next chunk; at the end of the
    stream a non-empty carried piece is one more line.  A reader delivers a
    line, or at the end of the lines the [end] event once, only while it is
    not paused. *)
Module LineByLineReader.

Record t : Type := {
  _lines : list string;    (* the lines not yet delivered *)
  _paused : bool;
  _ended : bool
}.

Definition breaks : string -> list string :=
  Js.split_breaks (fun _ => false).

Fixpoint lines_of (fragment : string) (chunks : list string)
  : list string :=
  match chunks with
  | [] => if (String.length fragment =? 0)%nat then [] else [fragment]
  | chunk :: chunks' =>
      (* _lines = chunk.split(...); _lines[0] = fragment + _lines[0];
         fragment = _lines.pop() *)
      let pieces :=
        match breaks chunk with
        | p :: ps => (fragment ++ p)%string :: ps
        | [] => []
        end in
      removelast pieces
        ++ lines_of (List.last pieces EmptyString) chunks'
  end.

Definition create (chunks : list string) : t :=
  {| _lines := lines_of EmptyString chunks;
     _paused := false; _ended := false |}.

Definition pause (r : t) : t :=
  {| _lines := _lines r; _paused := true; _ended := _ended r |}.
Definition resume (r : t) : t :=
  {| _lines := _lines r; _paused := false; _ended := _ended r |}.
Definition close (r : t) : t :=
  {| _lines := []; _paused := _paused r; _ended := _ended r |}.
Definition shift (r : t) : t :=
  {| _lines := tl (_lines r); _paused := _paused r; _ended := _ended r |}.
Definition finish (r : t) : t :=
  {| _lines := _lines r; _paused := _paused r; _ended := true |}.

End LineByLineReader.

(* ===================================================================== *)
(** ** The Bot *)
(* ===================================================================== *)

Inductive Level : Type := LogInfo | LogError.

(** What resumes after a [Promise.delay] of [connect] or [disconnect]. *)
Inductive Continuation : Type := AfterConnectDelay | AfterDisconnectDelay.

(** The fields of [this], with what the Bot has written to its
    collaborators: [io] is what [this.app.io.emit] has broadcast and [logger]
    what [this.logger] has been given, both oldest first; [delayed] holds the
    continuations waiting on a [Promise.delay], with their delays. *)
Record Bot : Type := mkBot {
  virtual : bool;
  queue : option CommandQueue;
  currentJob : option Job;
  lr : option LineByLineReader.t;
  currentLine : option nat;
  numLines : option nat;
  device : option Device;
  port : option string;
  fsm : State;                           (* this.fsm.current *)
  io : list (string * string);
  logger : list (Level * list string);
  delayed : list (N * Continuation)
}.

Definition set_virtual (v : bool) (b : Bot) : Bot :=
  mkBot v (queue b) (currentJob b) (lr b) (currentLine b) (numLines b)
        (device b) (port b) (fsm b) (io b) (logger b) (delayed b).
Definition set_queue (v : option CommandQueue) (b : Bot) : Bot :=
  mkBot (virtual b) v (currentJob b) (lr b) (currentLine b) (numLines b)
        (device b) (port b) (fsm b) (io b) (logger b) (delayed b).
Definition set_currentJob (v : option Job) (b : Bot) : Bot :=
  mkBot (virtual b) (queue b) v (lr b) (currentLine b) (numLines b)
        (device b) (port b) (fsm b) (io b) (logger b) (delayed b).
Definition set_lr (v : option LineByLineReader.t) (b : Bot) : Bot :=
  mkBot (virtual b) (queue b) (currentJob b) v (currentLine b) (numLines b)
        (device b) (port b) (fsm b) (io b) (logger b) (delayed b).
Definition set_currentLine (v : option nat) (b : Bot) : Bot :=
  mkBot (virtual b) (queue b) (currentJob b) (lr b) v (numLines b)
        (device b) (port b) (fsm b) (io b) (logger b) (delayed b).
Definition set_numLines (v : option nat) (b : Bot) : Bot :=
  mkBot (virtual b) (queue b) (currentJob b) (lr b) (currentLine b) v
        (device b) (port b) (fsm b) (io b) (logger b) (delayed b).
Definition set_device (v : option Device) (b : Bot) : Bot :=
  mkBot (virtual b) (queue b) (currentJob b) (lr b) (currentLine b)
        (numLines b) v (port b) (fsm b) (io b) (logger b) (delayed b).
Definition set_fsm (v : State) (b : Bot) : Bot :=
  mkBot (virtual b) (queue b) (currentJob b) (lr b) (currentLine b)
        (numLines b) (device b) (port b) v (io b) (logger b) (delayed b).
Definition set_io (v : list (string * string)) (b : Bot) : Bot :=
  mkBot (virtual b) (queue b) (currentJob b) (lr b) (currentLine b)
        (numLines b) (device b) (port b) (fsm b) v (logger b) (delayed b).
Definition set_logger (v : list (Level * list string)) (b : Bot) : Bot :=
  mkBot (virtual b) (queue b) (currentJob b) (lr b) (currentLine b)
        (numLines b) (device b) (port b) (fsm b) (io b) v (delayed b).
Definition set_delayed (v : list (N * Continuation)) (b : Bot) : Bot :=
  mkBot (virtual b) (queue b) (currentJob b) (lr b) (currentLine b)
        (numLines b) (device b) (port b) (fsm b) (io b) (logger b) v.

(** *** The state-and-exception monad

    A computation over the mutable Bot: a value or a thrown exception, and
    the Bot as the computation left it. *)
Definition M (A : Type) : Type := Bot -> Outcome A * Bot.

Definition ret {A} (a : A) : M A := fun b => (Ok a, b).

Definition bind {A B} (m : M A) (k : A -> M B) : M B :=
  fun b =>
    match m b with
    | (Ok a, b') => k a b'
    | (Throw e, b') => (Throw e, b')
    end.

Definition throw {A} (e : Exn) : M A := fun b => (Throw e, b).

(** [try { m } catch (ex) { h ex }] *)
Definition try_catch {A} (m : M A) (h : Exn -> M A) : M A :=
  fun b =>
    match m b with
    | (Ok a, b') => (Ok a, b')
    | (Throw e, b') => h e b'
    end.

Definition gets {A} (f : Bot -> A) : M A := fun b => (Ok (f b), b).
Definition modify (f : Bot -> Bot) : M unit := fun b => (Ok tt, f b).

(** A collaborator's result, rethrown when it failed. *)
Definition lift {A} (r : Outcome A) : M A := fun b => (r, b).

(** A call to an async method that is not awaited: the caller goes on
    whatever the callee's promise settles to. *)
Definition unawaited {A} (m : M A) : M unit :=
  fun b => (Ok tt, snd (m b)).

Declare Scope bot_scope.
Delimit Scope bot_scope with bot.
Notation "x <- m ;; k" := (bind m (fun x => k))
  (at level 61, m at next level, right associativity) : bot_scope.
Notation "m ;; k" := (bind m (fun _ => k))
  (at level 61, right associativity) : bot_scope.
Local Open Scope bot_scope.

Definition io_emit (event payload : string) : M unit :=
  modify (fun b => set_io (io b ++ [(event, payload)]) b).

Definition logger_info (args : list string) : M unit :=
  modify (fun b => set_logger (logger b ++ [(LogInfo, args)]) b).

Definition logger_error (args : list string) : M unit :=
  modify (fun b => set_logger (logger b ++ [(LogError, args)]) b).

(** *** [this.fsm] *)

(** [error: (one, two) => { ... }]; the package calls it with the event's
    name and the current state. *)
Definition fsm_error {A} (one two : string) : M A :=
  let errorMessage :=
    ("Invalid state change action " ++ Js.dquote ++ one ++ Js.dquote
       ++ ". State at " ++ Js.dquote ++ two ++ Js.dquote ++ ".")%string in
  logger_error [errorMessage] ;;
  throw (Thrown errorMessage).

(** [onenterstate: (event, from, to) => { ... }] *)
Definition onenterstate (event from to : string) : M unit :=
  io_emit "stateChange" to ;;
  logger_info [("Bot event " ++ event ++ ": Transitioning from " ++ from
                  ++ " to " ++ to ++ ".")%string].

(** [this.fsm.<ev>()] *)
Definition fsm_fire (ev : Ev.Event) : M StateMachine.Result :=
  current <- gets fsm ;;
  match StateMachine.dispatch (StateMachine.create events) current ev with
  | StateMachine.Inappropriate =>
      fsm_error (Ev.name ev) (state_name current)
  | StateMachine.NoTransition => ret StateMachine.NOTRANSITION
  | StateMachine.Enter t =>
      modify (set_fsm t) ;;
      onenterstate (Ev.name ev) (state_name current) (state_name t) ;;
      ret StateMachine.SUCCEEDED
  end.

(** The Bot as its constructor leaves it: the package fires its [startup]
    event from ['none'] to the initial state when the machine is created. *)
Definition Bot_new : Bot :=
  {| virtual := false; queue := None; currentJob := None; lr := None;
     currentLine := None; numLines := None; device := None; port := None;
     fsm := unavailable;
     io := [("stateChange", "unavailable")];
     logger := [(LogInfo,
       ["Bot event startup: Transitioning from none to unavailable."])];
     delayed := [] |}.

Record BotDescription : Type := { state : string }.

Definition getBot (b : Bot) : BotDescription :=
  {| state := state_name (fsm b) |}.

(** *** Collaborators outside the sources

    The file catalog ([app.context.files]), the file system and the
    configuration ([../../config]) are parameters: a catalog call returns or
    throws; [fs_createReadStream path] is the sequence of chunks in which
    the file at [path] is read. *)
Record Env : Type := {
  FileRecord : Type;
  files_getFile : string -> Outcome FileRecord;
  files_getFilePath : FileRecord -> Outcome string;
  fs_createReadStream : string -> list string;
  config_bot_baudrate : N;
  config_virtualDelay : N
}.

(** [validateReply(command, reply)] (part_000:438-441) *)
Definition validateReply (command : Payload) (reply : string) : bool :=
  let lines := Js.split Js.LF reply in
  Js.strict_eq (Js.last lines) "ok".

(** [expandCode(code)] (part_000:425-428) *)
Definition expandCode (code : string) : string :=
  (code ++ Js.chr Js.LF)%string.

(** [line.split(';')[0]] (part_000:183); [split] never returns the empty
    array, so the index is never [undefined]. *)
Definition strippedLine (line : string) : string :=
  match Js.first (Js.split ";"%char line) with
  | Some s => s
  | None => EmptyString
  end.

(** The pre-scan (part_000:209-223): every chunk adds the number of its
    pieces less one. *)
Definition prescan (chunks : list string) : nat :=
  fold_left
    (fun numLines chunk =>
       numLines + (List.length (Js.split_breaks (Ascii.eqb Js.NEL) chunk) - 1))
    chunks 0.

(** [this.queue.queueCommands(payload)] *)
Definition queueCommands (p : Payload) : M unit :=
  q <- gets queue ;;
  match q with
  | None => throw (TypeError "queueCommands")
  | Some q => modify (set_queue (Some (CommandQueue_queueCommands p q)))
  end.

(** [this.lr.pause()], [this.lr.resume()], [this.lr.close()] *)
Definition lr_call (method : string)
    (f : LineByLineReader.t -> LineByLineReader.t) : M unit :=
  r <- gets lr ;;
  match r with
  | None => throw (TypeError method)
  | Some r => modify (set_lr (Some (f r)))
  end.

(** [Promise.delay(ms)] followed by the rest of an async method that nobody
    awaits: the rest is parked until the delay has passed. *)
Definition Promise_delay (ms : N) (k : Continuation) : M unit :=
  modify (fun b => set_delayed (delayed b ++ [(ms, k)]) b).

Section WithEnv.

Variable env : Env.

(** [setupExecutor(port, baudrate)] (part_000:408-415) *)
Definition setupExecutor (port : option string) (baudrate : N)
  : SerialCommandExecutor :=
  let openPrime := "M501" in
  {| executor_port := port; executor_baudrate := baudrate;
     executor_openPrime := openPrime |}.

(** The spoofed usb data of a virtual device (part_000:278-298). *)
Definition virtualDevice : Device :=
  {| busNumber := 20;
     deviceAddress := 19;
     deviceDescriptor :=
       {| bLength := 18; bDescriptorType := 1; bcdUSB := 512;
          bDeviceClass := 2; bDeviceSubClass := 0; bDeviceProtocol := 0;
          bMaxPacketSize0 := 32; idVendor := 5824; idProduct := 1155;
          bcdDevice := 256; iManufacturer := 1; iProduct := 2;
          iSerialNumber := 3; bNumConfigurations := 1 |}%N;
     portNumbers := [5%N] |}%N.

(** [async detect(device)] (part_000:273-310); it has no [await], so it
    runs to its end when called. *)
Definition detect (_ : option Device) : M unit :=
  fsm_fire Ev.detect ;;
  try_catch
    (v <- gets virtual ;;
     (if v then modify (set_device (Some virtualDevice))
      else
        p <- gets port ;;
        modify (set_queue (Some
          {| executor := setupExecutor p (config_bot_baudrate env);
             entries := [] |}))) ;;
     fsm_fire Ev.detectDone ;;
     ret tt)
    (fun ex => fsm_fire Ev.detectFail ;; ret tt).

(** [async unplug()] (part_000:312-315) *)
Definition unplug : M unit :=
  modify (set_device None) ;;
  fsm_fire Ev.unplug ;;
  ret tt.

(** [async connect()] (part_000:317-333), up to its first suspension. *)
Definition connect : M unit :=
  try_catch
    (fsm_fire Ev.connect ;;
     v <- gets virtual ;;
     (if v then Promise_delay (config_virtualDelay env) AfterConnectDelay
      else
        queueCommands Open ;;
        fsm_fire Ev.connectDone ;;
        ret tt))
    (fun ex => fsm_fire Ev.connectFail ;; ret tt).

(** [async disconnect()] (part_000:335-349), up to its first suspension;
    both branches are the same. *)
Definition disconnect : M unit :=
  try_catch
    (fsm_fire Ev.disconnect ;;
     v <- gets virtual ;;
     (if v
      then Promise_delay (config_virtualDelay env) AfterDisconnectDelay
      else Promise_delay (config_virtualDelay env) AfterDisconnectDelay))
    (fun ex => fsm_fire Ev.disconnectFail ;; ret tt).

(** The rest of [connect] and [disconnect] after the delay, still inside
    their [try]. *)
Definition resume_after (k : Continuation) : M unit :=
  match k with
  | AfterConnectDelay =>
      try_catch (fsm_fire Ev.connectDone ;; ret tt)
                (fun ex => fsm_fire Ev.connectFail ;; ret tt)
  | AfterDisconnectDelay =>
      try_catch (fsm_fire Ev.disconnectDone ;; ret tt)
                (fun ex => fsm_fire Ev.disconnectFail ;; ret tt)
  end.

(** The oldest delay passes. *)
Definition delay_passes (b : Bot) : Bot :=
  match delayed b with
  | [] => b
  | (_, k) :: rest => snd (resume_after k (set_delayed rest b))
  end.

(** [async processCommand(command)] (part_000:118-153) *)
Definition processCommand (command : string) : M BotDescription :=
  if String.eqb command "createVirtualBot" then
    v <- gets virtual ;;
    (if negb v then
       modify (set_virtual true) ;;
       unawaited (detect None)
     else ret tt) ;;
    gets getBot
  else if String.eqb command "destroyVirtualBot" then
    v <- gets virtual ;;
    (if v then
       unplug ;;
       modify (set_virtual false)
     else ret tt) ;;
    gets getBot
  else if String.eqb command "connect" then
    unawaited connect ;;
    gets getBot
  else if String.eqb command "disconnect" then
    unawaited disconnect ;;
    gets getBot
  else
    let errorMessage :=
      ("Command " ++ Js.dquote ++ command ++ Js.dquote
         ++ " is not supported.")%string in
    throw (Thrown errorMessage).

(** *** Streaming a job (part_000:157-228) *)

(** [self.currentJob.fsm.current] *)
Definition currentJob_state : M JobState :=
  j <- gets currentJob ;;
  match j with
  | None => throw (TypeError "fsm")
  | Some j => ret (job_fsm j)
  end.

(** [self.currentJob.<method>()] for the two calls of the [end] handler. *)
Definition currentJob_call (method : string) (f : Job -> Job) : M unit :=
  j <- gets currentJob ;;
  match j with
  | None => throw (TypeError method)
  | Some j => modify (set_currentJob (Some (f j)))
  end.

(** [self.lr.on('line', async (line) => { ... })] (part_000:176-197).
    [self.currentLine += 1] on [undefined] is not a number; the handler is
    only registered after [startJob] has set the cursor to 0.  The handler
    is run through its [Promise.delay(100)]. *)
Definition on_line (line : string) : M unit :=
  lr_call "pause" LineByLineReader.pause ;;
  modify (fun b => set_currentLine (option_map (fun n => n + 1)
                                               (currentLine b)) b) ;;
  let strippedLine := strippedLine line in
  if (String.length strippedLine <=? 0)%nat then
    lr_call "resume" LineByLineReader.resume
  else
    queueCommands (Gcode strippedLine) ;;
    st <- currentJob_state ;;
    match st with
    | running => lr_call "resume" LineByLineReader.resume
    | _ => ret tt
    end.

(** [self.lr.on('end', async () => { ... })] (part_000:199-206) *)
Definition on_end (filePath : string) : M unit :=
  fsm_fire Ev.stop ;;
  lr_call "close" LineByLineReader.close ;;
  logger_info ["completed reading file,"; filePath; "is closed now."] ;;
  fsm_fire Ev.stopDone ;;
  currentJob_call "complete" Job_complete ;;
  currentJob_call "stop" Job_stopwatch_stop.

(** [async startJob(job)] (part_000:157-228), run through its awaits; the
    file path the handlers close over is returned. *)
Definition startJob (job : Job) : M string :=
  modify (set_currentJob (Some job)) ;;
  fsm_fire Ev.start ;;
  theFile <- lift (files_getFile env (fileId job)) ;;
  filePath <- lift (files_getFilePath env theFile) ;;
  modify (set_lr (Some
    (LineByLineReader.create (fs_createReadStream env filePath)))) ;;
  modify (set_currentLine (Some 0)) ;;
  lr_call "pause" LineByLineReader.pause ;;
  let numLines := prescan (fs_createReadStream env filePath) in
  modify (set_numLines (Some numLines)) ;;
  logger_info [("Bot will process file with "
                  ++ NilEmpty.string_of_uint (Nat.to_uint numLines)
                  ++ " lines.")%string] ;;
  lr_call "resume" LineByLineReader.resume ;;
  fsm_fire Ev.startDone ;;
  ret filePath.

(** One turn of the line reader: nothing while it is paused; else the next
    line goes to the [line] handler, or at the end of the lines the [end]
    handler runs, once.  A handler is async and nobody awaits it.  Within
    a turn the handler runs to its end, its delay included; what another
    operation meets while a line handler waits is told by the handler's two
    halves, [on_line_begin] and [on_line_finish]. *)
Definition lr_turn (filePath : string) (b : Bot) : Bot :=
  match lr b with
  | None => b
  | Some r =>
      if LineByLineReader._paused r then b
      else
        match LineByLineReader._lines r with
        | line :: _ =>
            snd (on_line line
                   (set_lr (Some (LineByLineReader.shift r)) b))
        | [] =>
            if LineByLineReader._ended r then b
            else snd (on_end filePath
                        (set_lr (Some (LineByLineReader.finish r)) b))
        end
  end.

Fixpoint lr_turns (n : nat) (filePath : string) (b : Bot) : Bot :=
  match n with
  | 0 => b
  | S n' => lr_turns n' filePath (lr_turn filePath b)
  end.

End WithEnv.

(** *** The usb scanner (part_000:351-406) *)

(** [parseInt(s, 16)]: leading white space is skipped, then a sign, then
    [0x] or [0X]; the value is that of the longest run of hexadecimal
    digits that follows, and [NaN] ([None]) when there is none.  The value is
    exact; a JavaScript number rounds from 2^53 on, which makes no
    difference to a comparison with a usb identifier. *)
Definition white_space (c : ascii) : bool :=
  match nat_of_ascii c with
  | 9 | 10 | 11 | 12 | 13 | 32 | 160 => true
  | _ => false
  end.

Definition hex_digit (c : ascii) : option N :=
  let n := N_of_ascii c in
  if ((48 <=? n) && (n <=? 57))%N then Some (n - 48)%N
  else if ((97 <=? n) && (n <=? 102))%N then Some (n - 87)%N
  else if ((65 <=? n) && (n <=? 70))%N then Some (n - 55)%N
  else None.

Fixpoint skip_white_space (s : string) : string :=
  match s with
  | String c rest => if white_space c then skip_white_space rest else s
  | EmptyString => s
  end.

Fixpoint hex_value (acc : N) (s : string) : N :=
  match s with
  | String c rest =>
      match hex_digit c with
      | Some d => hex_value (acc * 16 + d) rest
      | None => acc
      end
  | EmptyString => acc
  end.

Definition parseInt16 (s : string) : option Z :=
  let s := skip_white_space s in
  let (negative, s) :=
    match s with
    | String "-" rest => (true, rest)
    | String "+" rest => (false, rest)
    | _ => (false, s)
    end in
  let s :=
    match s with
    | String "0" (String "x" rest) => rest
    | String "0" (String "X" rest) => rest
    | _ => s
    end in
  match s with
  | String c _ =>
      match hex_digit c with
      | Some _ =>
          let value := Z.of_N (hex_value 0 s) in
          Some (if negative then (- value)%Z else value)
      | None => None
      end
  | EmptyString => None
  end.

(** [config.bot.vid] and [config.bot.pid] *)
Record UsbConfig : Type := {
  config_bot_vid : N;
  config_bot_pid : N
}.

(** An entry of [SerialPort.list]; a port that is not a usb port has no
    identifiers. *)
Record PortInfo : Type := {
  comName : string;
  vendorId : option string;
  productId : option string
}.

Definition set_port (v : option string) (b : Bot) : Bot :=
  mkBot (virtual b) (queue b) (currentJob b) (lr b) (currentLine b)
        (numLines b) (device b) v (fsm b) (io b) (logger b) (delayed b).

(** [verifyVidPid(device)] (part_000:372-381) *)
Definition verifyVidPid (cfg : UsbConfig) (device : Device) : M bool :=
  if ((idVendor (deviceDescriptor device) =? config_bot_vid cfg)
      && (idProduct (deviceDescriptor device) =? config_bot_pid cfg))%N
  then
    modify (set_device (Some device)) ;;
    ret true
  else ret false.

(** [id === parseInt(text.split('x').pop(), 16)] *)
Definition id_is (id : N) (text : string) : bool :=
  match Js.last (Js.split "x"%char text) with
  | Some digits =>
      match parseInt16 digits with
      | Some value => (Z.of_N id =? value)%Z
      | None => false
      end
  | None => false
  end.

(** How the promise of [getPort] ends: resolved, rejected, or never settled
    because the callback of [SerialPort.list] threw. *)
Inductive PortSearch : Type :=
| Resolved (value : bool)
| Rejected (value : bool)
| CallbackThrew (e : Exn).

(** The loop over the ports (part_000:392-402). *)
Fixpoint scan_ports (d : Device) (ports : list PortInfo)
  : PortSearch * option string :=
  match ports with
  | [] => (Rejected false, None)
  | port :: ports' =>
      match vendorId port with
      | None => (CallbackThrew (TypeError "split"), None)
      | Some vendor =>
          if id_is (idVendor (deviceDescriptor d)) vendor then
            match productId port with
            | None => (CallbackThrew (TypeError "split"), None)
            | Some product =>
                if id_is (idProduct (deviceDescriptor d)) product
                then (Resolved true, Some (comName port))
                else scan_ports d ports'
            end
          else scan_ports d ports'
      end
  end.

(** [async getPort()] (part_000:383-406), [ports] being what
    [SerialPort.list] reports. *)
Definition getPort (ports : list PortInfo) (b : Bot) : PortSearch * Bot :=
  match device b with
  | None => (Rejected false, b)
  | Some d =>
      match scan_ports d ports with
      | (Resolved v, Some name) => (Resolved v, set_port (Some name) b)
      | (result, _) => (result, b)
      end
  end.

(** The [attach] handler of [setupUsbScanner] (part_000:353-357), run
    through its await: [detect] is called when [verifyVidPid] and
    [getPort] both give [true]. *)
Definition usb_on_attach (env : Env) (cfg : UsbConfig)
    (ports : list PortInfo) (device : Device) (b : Bot) : Bot :=
  match verifyVidPid cfg device b with
  | (Ok true, b1) =>
      match getPort ports b1 with
      | (Resolved true, b2) => snd (detect env (Some device) b2)
      | (_, b2) => b2
      end
  | (_, b1) => b1
  end.

(** The [detach] handler of [setupUsbScanner] (part_000:358-362). *)
Definition usb_on_detach (cfg : UsbConfig) (device : Device) (b : Bot)
  : Bot :=
  match verifyVidPid cfg device b with
  | (Ok true, b1) => snd (unplug b1)
  | (_, b1) => b1
  end.

(** *** Pausing and resuming a job (part_000:230-244) *)

(** [async pauseJob()] *)
Definition pauseJob : M unit :=
  current <- gets fsm ;;
  if negb (State_eqb current connected) then
    fsm_fire Ev.stop ;;
    lr_call "pause" LineByLineReader.pause ;;
    fsm_fire Ev.stopDone ;;
    ret tt
  else ret tt.

(** [async resumeJob()] *)
Definition resumeJob : M unit :=
  current <- gets fsm ;;
  if negb (State_eqb current processingJob) then
    fsm_fire Ev.start ;;
    lr_call "resume" LineByLineReader.resume ;;
    fsm_fire Ev.startDone ;;
    ret tt
  else ret tt.

(** *** The line handler in its two halves (part_000:176-197)

    The handler waits on [Promise.delay(100)] between stripping the line
    and handing the command over, and other operations of the Bot can run
    while it waits. *)

(** Up to the delay: the command the handler is about to hand over, or
    nothing when the line is blank and the handler is done. *)
Definition on_line_begin (line : string) : M (option string) :=
  lr_call "pause" LineByLineReader.pause ;;
  modify (fun b => set_currentLine (option_map (fun n => n + 1)
                                               (currentLine b)) b) ;;
  let strippedLine := strippedLine line in
  if (String.length strippedLine <=? 0)%nat then
    lr_call "resume" LineByLineReader.resume ;;
    ret None
  else ret (Some strippedLine).

(** After the delay. *)
Definition on_line_finish (strippedLine : string) : M unit :=
  queueCommands (Gcode strippedLine) ;;
  st <- currentJob_state ;;
  match st with
  | running => lr_call "resume" LineByLineReader.resume
  | _ => ret tt
  end.

(* ===================================================================== *)
(** ** Sample inputs *)
(* ===================================================================== *)

Module Sample.

Definition nl : string := Js.chr Js.LF.
Definition crlf : string := (Js.chr Js.CR ++ Js.chr Js.LF)%string.

(** A catalog with one file, [job.gcode], of five lines: three commands,
    a comment and a blank line. *)
Definition job_gcode : list string :=
  [ ("G28" ++ nl ++ "; home first" ++ nl ++ "G1 X10 ; move" ++ nl)%string
  ; (nl ++ "M84" ++ nl)%string ].

(** A file of one line with no line break after it. *)
Definition one_line : list string := ["G28"].

Definition env : Env :=
  {| FileRecord := string;
     files_getFile := fun id =>
       if String.eqb id "file-1" then Ok "job.gcode"
       else if String.eqb id "file-2" then Ok "one.gcode"
       else Throw (Failure "getFile");
     files_getFilePath := fun f => Ok ("/files/" ++ f)%string;
     fs_createReadStream := fun path =>
       if String.eqb path "/files/job.gcode" then job_gcode
       else if String.eqb path "/files/one.gcode" then one_line
       else [];
     config_bot_baudrate := 230400%N;
     config_virtualDelay := 500%N |}.

Definition job (id : string) : Job :=
  {| fileId := id; job_fsm := running; stopwatch_running := true |}.

Definition serial_queue : CommandQueue :=
  {| executor := setupExecutor (Some "/dev/ttyACM0") 230400%N;
     entries := [Open] |}.

(** A physical bot that has been detected and connected. *)
Definition connected_bot : Bot :=
  {| virtual := false; queue := Some serial_queue; currentJob := None;
     lr := None; currentLine := None; numLines := None; device := None;
     port := Some "/dev/ttyACM0"; fsm := connected; io := [];
     logger := []; delayed := [] |}.

(** A virtual bot that has been created. *)
Definition virtual_ready_bot : Bot :=
  snd (processCommand env "createVirtualBot" Bot_new).


(** The detected physical bot before it is connected. *)
Definition ready_bot : Bot := set_fsm ready connected_bot.

(** The connected bot streaming [job.gcode], none of it delivered yet. *)
Definition processing_bot : Bot :=
  snd (startJob env (job "file-1") connected_bot).

(** The usb identifiers of the bot, and the ports of the machine. *)
Definition usb : UsbConfig :=
  {| config_bot_vid := 5824; config_bot_pid := 1155 |}%N.

Definition other_device : Device :=
  {| busNumber := 1; deviceAddress := 2;
     deviceDescriptor :=
       {| bLength := 18; bDescriptorType := 1; bcdUSB := 512;
          bDeviceClass := 9; bDeviceSubClass := 0; bDeviceProtocol := 1;
          bMaxPacketSize0 := 64; idVendor := 7531; idProduct := 2;
          bcdDevice := 1040; iManufacturer := 3; iProduct := 2;
          iSerialNumber := 1; bNumConfigurations := 1 |}%N;
     portNumbers := [] |}%N.

Definition ftdi_port : PortInfo :=
  {| comName := "/dev/ttyUSB0"; vendorId := Some "0x0403";
     productId := Some "0x6001" |}.

Definition bot_port : PortInfo :=
  {| comName := "/dev/ttyACM0"; vendorId := Some "0x16c0";
     productId := Some "0x0483" |}.

End Sample.

(* ===================================================================== *)
(** ** Definitions used to state the properties *)
(* ===================================================================== *)

(** The message of the [error] callback. *)
Definition invalid_state_change (ev : Ev.Event) (s : State) : string :=
  ("Invalid state change action " ++ Js.dquote ++ Ev.name ev ++ Js.dquote
     ++ ". State at " ++ Js.dquote ++ state_name s ++ Js.dquote ++ ".")%string.

(** The state table, decided. *)
Definition declaredb (s : State) (ev : Ev.Event) (e : Edge) : bool :=
  Ev.eqb (name e) ev && (From_eqb (from e) (At s) || From_eqb (from e) Wildcard).

(** Events fired one after the other, each whatever the one before came
    to. *)
Fixpoint fire_all (evs : list Ev.Event) (b : Bot) : Bot :=
  match evs with
  | [] => b
  | ev :: evs' => fire_all evs' (snd (fsm_fire ev b))
  end.

(** An observer that keeps the payload of the last [stateChange] it was
    sent knows the machine's state. *)
Definition in_sync (b : Bot) : Prop :=
  Js.last (io b) = Some ("stateChange", state_name (fsm b)).

(** A computation keeps a property of the Bot, however it ends. *)
Definition keeps {A} (P : Bot -> Prop) (m : M A) : Prop :=
  forall b, P b -> P (snd (m b)).

(** A line reader that is paused. *)
Definition paused_reader (lines : list string) (ended : bool)
  : LineByLineReader.t :=
  {| LineByLineReader._lines := lines; LineByLineReader._paused := true;
     LineByLineReader._ended := ended |}.

(** The Bot after a successful transition to [t] on event [ev]. *)
Definition entered (ev : Ev.Event) (t : State) (b : Bot) : Bot :=
  set_logger
    (logger b ++
       [(LogInfo,
         [("Bot event " ++ Ev.name ev ++ ": Transitioning from "
             ++ state_name (fsm b) ++ " to " ++ state_name t
             ++ ".")%string])])
    (set_io (io b ++ [("stateChange", state_name t)]) (set_fsm t b)).

(** A line that is not empty once its comment is stripped. *)
Definition nonBlank (line : string) : bool :=
  negb (String.length (strippedLine line) <=? 0)%nat.

(** The commands of a file's lines, in the order of the lines. *)
Definition commands_of (lines : list string) : list string :=
  map strippedLine (filter nonBlank lines).

(** A line reader that is not paused. *)
Definition reader (lines : list string) (ended : bool)
  : LineByLineReader.t :=
  {| LineByLineReader._lines := lines; LineByLineReader._paused := false;
     LineByLineReader._ended := ended |}.

(** The queue after [commands] have been handed to it, in order. *)
Definition forward (commands : list string) (q : CommandQueue)
  : CommandQueue :=
  {| executor := executor q; entries := entries q ++ map Gcode commands |}.

(** The log entry of a transition. *)
Definition transitioned (ev : Ev.Event) (s t : State)
  : Level * list string :=
  (LogInfo,
   [("Bot event " ++ Ev.name ev ++ ": Transitioning from " ++ state_name s
       ++ " to " ++ state_name t ++ ".")%string]).

(** A [stateChange] broadcast. *)
Definition stateChange (s : State) : string * string :=
  ("stateChange", state_name s).

(** A way from [unavailable] to a state. *)
Definition route (s : State) : list Ev.Event :=
  match s with
  | unavailable => []
  | detecting => [Ev.detect]
  | ready => [Ev.detect; Ev.detectDone]
  | connecting => [Ev.detect; Ev.detectDone; Ev.connect]
  | connected => [Ev.detect; Ev.detectDone; Ev.connect; Ev.connectDone]
  | startingJob =>
      [Ev.detect; Ev.detectDone; Ev.connect; Ev.connectDone; Ev.start]
  | processingJob =>
      [Ev.detect; Ev.detectDone; Ev.connect; Ev.connectDone; Ev.start;
       Ev.startDone]
  | stopping =>
      [Ev.detect; Ev.detectDone; Ev.connect; Ev.connectDone; Ev.start;
       Ev.startDone; Ev.stop]
  | processingGcode =>
      [Ev.detect; Ev.detectDone; Ev.connect; Ev.connectDone;
       Ev.connectedToGcode]
  | disconnecting =>
      [Ev.detect; Ev.detectDone; Ev.connect; Ev.connectDone; Ev.disconnect]
  end.

(** The line breaks the reader cuts at, chunk by chunk. *)
Fixpoint reader_breaks (chunks : list string) : nat :=
  match chunks with
  | [] => 0
  | chunk :: chunks' =>
      (List.length (LineByLineReader.breaks chunk) - 1) + reader_breaks chunks'
  end.

(** No character of the string is a line break. *)
Definition single_line (s : string) : Prop :=
  forall c, In c (list_ascii_of_string s) -> c <> Js.CR /\ c <> Js.LF.

(** The device is the one the configuration names. *)
Definition configured (cfg : UsbConfig) (d : Device) : Prop :=
  idVendor (deviceDescriptor d) = config_bot_vid cfg
  /\ idProduct (deviceDescriptor d) = config_bot_pid cfg.

(** The port reports the identifiers of the device. *)
Definition port_of (d : Device) (p : PortInfo) : Prop :=
  exists vendor product,
    vendorId p = Some vendor /\ productId p = Some product
    /\ id_is (idVendor (deviceDescriptor d)) vendor = true
    /\ id_is (idProduct (deviceDescriptor d)) product = true.

(** The port reports identifiers, and they are not those of the device. *)
Definition other_port (d : Device) (p : PortInfo) : Prop :=
  exists vendor,
    vendorId p = Some vendor
    /\ (id_is (idVendor (deviceDescriptor d)) vendor = false
        \/ exists product,
             productId p = Some product
             /\ id_is (idProduct (deviceDescriptor d)) product = false).

(** A 16-bit identifier as serial ports report it: four lower-case
    hexadecimal digits behind [0x]. *)
Definition hex_char (d : N) : ascii :=
  if (d <? 10)%N then ascii_of_N (48 + d) else ascii_of_N (87 + d).

Definition hex_id (n : N) : string :=
  String "0" (String "x"
    (String (hex_char ((n / 4096) mod 16))
       (String (hex_char ((n / 256) mod 16))
          (String (hex_char ((n / 16) mod 16))
             (String (hex_char (n mod 16)) EmptyString))))).

(** The identifier is read back from its text. *)
Definition reads_back (n : N) : bool :=
  match Js.last (Js.split "x"%char (hex_id n)) with
  | Some digits =>
      match parseInt16 digits with
      | Some value => (value =? Z.of_N n)%Z
      | None => false
      end
  | None => false
  end.

Definition digits16 : list N :=
  [0; 1; 2; 3; 4; 5; 6; 7; 8; 9; 10; 11; 12; 13; 14; 15]%N.

Definition reads_back_digits (d3 d2 d1 d0 : N) : bool :=
  reads_back (((d3 * 16 + d2) * 16 + d1) * 16 + d0)%N.

(* ===================================================================== *)
(** ** The lifecycle state machine *)
(* ===================================================================== *)

Lemma State_eqb_eq (a b : State) : State_eqb a b = true <-> a = b.
Proof. destruct a, b; simpl; split; congruence. Qed.

Lemma Ev_eqb_eq (a b : Ev.Event) : Ev.eqb a b = true <-> a = b.
Proof.
  split.
  - destruct a, b; intros H; try reflexivity; vm_compute in H; discriminate.
  - intros ->. unfold Ev.eqb. apply String.eqb_refl.
Qed.

Lemma declaredb_spec s ev e :
  declared s ev e <-> In e events /\ declaredb s ev e = true.
Proof.
  unfold declared, declaredb. rewrite andb_true_iff, orb_true_iff, Ev_eqb_eq.
  assert (Hf : forall f g, From_eqb f g = true <-> f = g).
  { intros [x|] [y|]; simpl; rewrite ?State_eqb_eq;
      split; intros H; try congruence; try discriminate. }
  rewrite !Hf. tauto.
Qed.

(** What firing an event does, by the three cases of the dispatch. *)
Lemma fsm_fire_cases (ev : Ev.Event) (b : Bot) :
  fsm_fire ev b =
  match StateMachine.dispatch (StateMachine.create events) (fsm b) ev with
  | StateMachine.Inappropriate =>
      (Throw (Thrown (invalid_state_change ev (fsm b))),
       set_logger
         (logger b ++ [(LogError, [invalid_state_change ev (fsm b)])]) b)
  | StateMachine.NoTransition => (Ok StateMachine.NOTRANSITION, b)
  | StateMachine.Enter t =>
      (Ok StateMachine.SUCCEEDED,
       set_logger
         (logger b ++
            [(LogInfo,
              [("Bot event " ++ Ev.name ev ++ ": Transitioning from "
                  ++ state_name (fsm b) ++ " to " ++ state_name t
                  ++ ".")%string])])
         (set_io (io b ++ [("stateChange", state_name t)]) (set_fsm t b)))
  end.
Proof.
  unfold fsm_fire, bind, gets. simpl.
  destruct (StateMachine.dispatch _ _ _); reflexivity.
Qed.

(** The dispatch on a declared pair: the machine enters the declared state,
    unless it is in it already. *)
Lemma dispatch_declared s ev e :
  declared s ev e ->
  StateMachine.dispatch (StateMachine.create events) s ev =
  if State_eqb s (to e) then StateMachine.NoTransition
  else StateMachine.Enter (to e).
Proof.
  intros (Hin & Hname & Hfrom). subst ev.
  simpl in Hin.
  repeat (destruct Hin as [<- | Hin];
          [ simpl in Hfrom;
            destruct Hfrom as [Hf | Hf]; try discriminate Hf;
            try (injection Hf as <-); try (destruct s); reflexivity | ]).
  contradiction.
Qed.

(** The dispatch on a pair that is not declared. *)
Lemma dispatch_undeclared s ev :
  (forall e, ~ declared s ev e) ->
  StateMachine.dispatch (StateMachine.create events) s ev =
  StateMachine.Inappropriate.
Proof.
  intros Hnone.
  assert (Hb : forallb (fun e => negb (declaredb s ev e)) events = true).
  { apply forallb_forall. intros e Hin.
    destruct (declaredb s ev e) eqn:Hd; [ | reflexivity ].
    exfalso. apply (Hnone e). apply declaredb_spec. auto. }
  clear Hnone.
  destruct s, ev; try reflexivity; vm_compute in Hb; discriminate Hb.
Qed.

(** C1 (as amended).  For every declared (from, event) pair, the wildcard of
    [unplug] standing for every state, firing the event in the from state
    ends in the declared to state.  When the to state differs from the from
    state the transition succeeds and broadcasts exactly one [stateChange]
    carrying the new state's name; when the machine is in the to state
    already the result is no transition and nothing is broadcast. *)
Theorem declared_event_reaches_target (s : State) (ev : Ev.Event) (e : Edge)
    (b : Bot) :
  declared s ev e ->
  fsm b = s ->
  exists (r : StateMachine.Result) (b' : Bot),
    fsm_fire ev b = (Ok r, b')
    /\ fsm b' = to e
    /\ (s <> to e ->
        r = StateMachine.SUCCEEDED
        /\ io b' = io b ++ [("stateChange", state_name (to e))])
    /\ (s = to e -> r = StateMachine.NOTRANSITION /\ io b' = io b).
Proof.
  intros Hdecl Hs.
  rewrite fsm_fire_cases, Hs, (dispatch_declared s ev e Hdecl).
  destruct (State_eqb s (to e)) eqn:Heq.
  - apply State_eqb_eq in Heq.
    exists StateMachine.NOTRANSITION, b. repeat split; try congruence.
  - assert (Hne : s <> to e).
    { intros H. apply State_eqb_eq in H. congruence. }
    eexists _, _. split; [ reflexivity | ].
    simpl. repeat split; try reflexivity; contradiction.
Qed.

Lemma declared_event_reaches_target_witness :
  exists (r : StateMachine.Result) (b' : Bot),
    fsm_fire Ev.connect (set_fsm ready Bot_new) = (Ok r, b')
    /\ fsm b' = connecting
    /\ (ready <> connecting ->
        r = StateMachine.SUCCEEDED
        /\ io b' = io (set_fsm ready Bot_new)
                     ++ [("stateChange", state_name connecting)])
    /\ (ready = connecting ->
        r = StateMachine.NOTRANSITION /\ io b' = io (set_fsm ready Bot_new)).
Proof.
  apply (declared_event_reaches_target ready Ev.connect
           (edge Ev.connect (At ready) connecting) (set_fsm ready Bot_new)).
  - unfold declared. simpl. tauto.
  - reflexivity.
Defined.

(** C1 (as stated) fails: [unplug] is declared from every state, also from
    [unavailable]; fired there, the machine stays in [unavailable] and no
    [stateChange] is broadcast. *)
Lemma unplug_while_unavailable_is_silent :
  declared unavailable Ev.unplug (edge Ev.unplug Wildcard unavailable)
  /\ fsm Bot_new = unavailable
  /\ fsm_fire Ev.unplug Bot_new = (Ok StateMachine.NOTRANSITION, Bot_new)
  /\ io (snd (fsm_fire Ev.unplug Bot_new))
     <> io Bot_new ++ [("stateChange", state_name unavailable)].
Proof.
  split; [ unfold declared; simpl; tauto | ].
  split; [ reflexivity | ].
  split; [ reflexivity | ].
  vm_compute. discriminate.
Qed.

(** C2.  For every (state, event) pair that the table does not declare,
    firing the event logs an error, throws it, leaves the machine's state,
    and every field of the Bot but the log, as it was, and whatever was to
    follow the call does not run. *)
Theorem undeclared_event_is_fatal (s : State) (ev : Ev.Event) (b : Bot) :
  fsm b = s ->
  (forall e, ~ declared s ev e) ->
  let message := invalid_state_change ev s in
  let b' := set_logger (logger b ++ [(LogError, [message])]) b in
  fsm_fire ev b = (Throw (Thrown message), b')
  /\ fsm b' = s
  /\ io b' = io b
  /\ forall (A : Type) (rest : M A),
       (fsm_fire ev ;; rest) b = (Throw (Thrown message), b').
Proof.
  intros Hs Hnone. simpl.
  assert (Hfire : fsm_fire ev b =
            (Throw (Thrown (invalid_state_change ev s)),
             set_logger
               (logger b ++ [(LogError, [invalid_state_change ev s])]) b)).
  { rewrite fsm_fire_cases, Hs, (dispatch_undeclared s ev Hnone).
    reflexivity. }
  split; [ exact Hfire | ].
  split; [ exact Hs | ].
  split; [ reflexivity | ].
  intros A rest. unfold bind. rewrite Hfire. reflexivity.
Qed.

Lemma undeclared_event_is_fatal_witness :
  fsm_fire Ev.connect Bot_new
  = (Throw (Thrown (invalid_state_change Ev.connect unavailable)),
     set_logger
       (logger Bot_new
          ++ [(LogError, [invalid_state_change Ev.connect unavailable])])
       Bot_new).
Proof.
  refine (proj1 (undeclared_event_is_fatal unavailable Ev.connect Bot_new
                   eq_refl _)).
  intros e He. apply declaredb_spec in He. destruct He as [Hin Hd].
  simpl in Hin.
  repeat (destruct Hin as [<- | Hin]; [ discriminate Hd | ]).
  contradiction.
Defined.

(* ===================================================================== *)
(** ** Reply validation *)
(* ===================================================================== *)

(** C3, at the reply "T:200\r\nok\r\n".  [split('\n')] leaves the carriage
    returns in place and a last, empty piece after the final line feed, so
    the reply that the documentation of [validateReply] means to accept
    ("true if the last line was 'ok'. Parses out DOS newlines") is
    refused, as is the same reply with plain line feeds; only a reply that
    stops right after [ok] is acknowledged. *)
Theorem validateReply_refuses_dos_ok (command : Payload) :
  validateReply command ("T:200" ++ Sample.crlf ++ "ok" ++ Sample.crlf)%string
    = false
  /\ Js.split Js.LF ("T:200" ++ Sample.crlf ++ "ok" ++ Sample.crlf)%string
     = [("T:200" ++ Js.chr Js.CR)%string; ("ok" ++ Js.chr Js.CR)%string;
        EmptyString]
  /\ validateReply command ("T:200" ++ Sample.nl ++ "ok" ++ Sample.nl)%string
     = false
  /\ validateReply command ("T:200" ++ Sample.crlf ++ "ok")%string = true
  /\ validateReply command
       ("T:200" ++ Sample.crlf ++ "error" ++ Sample.crlf)%string = false.
Proof. repeat split. Qed.

(** C10.  The verdict of [validateReply] depends on the reply only, not on
    the command that was sent. *)
Theorem validateReply_ignores_command (c1 c2 : Payload) (reply : string) :
  validateReply c1 reply = validateReply c2 reply.
Proof. reflexivity. Qed.

(* ===================================================================== *)
(** ** Lifecycle commands *)
(* ===================================================================== *)

(** C7.  Any command other than the four lifecycle commands is rejected
    with a message that names it and says it is not supported, and the Bot,
    the state of its machine included, is left exactly as it was. *)
Theorem unsupported_command_is_rejected (env : Env) (command : string)
    (b : Bot) :
  command <> "createVirtualBot" ->
  command <> "destroyVirtualBot" ->
  command <> "connect" ->
  command <> "disconnect" ->
  processCommand env command b
  = (Throw (Thrown ("Command " ++ Js.dquote ++ command ++ Js.dquote
                      ++ " is not supported.")%string),
     b).
Proof.
  intros H1 H2 H3 H4. unfold processCommand.
  apply String.eqb_neq in H1, H2, H3, H4.
  rewrite H1, H2, H3, H4. reflexivity.
Qed.

Lemma unsupported_command_is_rejected_witness :
  processCommand Sample.env "reboot" Sample.connected_bot
  = (Throw (Thrown ("Command " ++ Js.dquote ++ "reboot" ++ Js.dquote
                      ++ " is not supported.")%string),
     Sample.connected_bot).
Proof.
  apply (unsupported_command_is_rejected Sample.env "reboot"
           Sample.connected_bot); discriminate.
Defined.

(** C9.  [createVirtualBot] on a Bot that is virtual already, and
    [destroyVirtualBot] on one that is not, fire no event and change no
    field: the Bot is returned as it was, with the description of its
    current state. *)
Theorem virtual_bot_commands_idempotent (env : Env) (b : Bot) :
  (virtual b = true ->
   processCommand env "createVirtualBot" b = (Ok (getBot b), b))
  /\ (virtual b = false ->
      processCommand env "destroyVirtualBot" b = (Ok (getBot b), b)).
Proof.
  split; intros Hv; unfold processCommand, bind, gets; simpl;
    rewrite Hv; reflexivity.
Qed.

Lemma virtual_bot_commands_idempotent_witness :
  processCommand Sample.env "destroyVirtualBot" Sample.connected_bot
  = (Ok (getBot Sample.connected_bot), Sample.connected_bot).
Proof.
  apply (proj2 (virtual_bot_commands_idempotent Sample.env
                  Sample.connected_bot)).
  reflexivity.
Defined.

(* ===================================================================== *)
(** ** Comment stripping *)
(* ===================================================================== *)

Lemma split_nonempty (sep : ascii) (s : string) : Js.split sep s <> [].
Proof.
  destruct s as [| c rest]; simpl; [ discriminate | ].
  destruct (Ascii.eqb c sep); [ discriminate | ].
  destruct (Js.split sep rest); discriminate.
Qed.

(** The first piece of a split is the text before the first separator. *)
Lemma split_first_piece (sep : ascii) (s : string) :
  exists piece pieces rest,
    Js.split sep s = piece :: pieces
    /\ s = (piece ++ rest)%string
    /\ (rest = EmptyString \/ exists r, rest = String sep r)
    /\ forall c, In c (list_ascii_of_string piece) -> c <> sep.
Proof.
  induction s as [| c s IH]; simpl.
  - exists EmptyString, [], EmptyString. simpl. intuition.
  - destruct (Ascii.eqb c sep) eqn:Hc.
    + apply Ascii.eqb_eq in Hc. subst c.
      exists EmptyString, (Js.split sep s), (String sep s).
      simpl. intuition eauto.
    + destruct IH as (piece & pieces & rest & Hsplit & Hs & Hrest & Hfree).
      rewrite Hsplit.
      exists (String c piece), pieces, rest.
      split; [ reflexivity | ].
      split; [ simpl; congruence | ].
      split; [ exact Hrest | ].
      simpl. intros a [<- | Ha].
      * intros ->. rewrite Ascii.eqb_refl in Hc. discriminate.
      * auto.
Qed.

(** The line handler does not forward a line that strips to nothing. *)
Lemma on_line_blank (line : string) (b : Bot) :
  strippedLine line = EmptyString ->
  queue (snd (on_line line b)) = queue b.
Proof.
  intros Hblank. unfold on_line. rewrite Hblank.
  destruct b as [v q j [r |] c n d p f i l t]; reflexivity.
Qed.

(** C5 (as amended).  Comment stripping keeps the text of a line before its
    first [;] and nothing else: the line is the stripped text followed by
    nothing or by a rest that starts with [;], and the stripped text has no
    [;] in it.  Nothing is trimmed: "G1 X10 ; move" strips to "G1 X10 " with
    the blank before the semicolon kept.  ";comment" strips to the empty
    string, and a line that strips to the empty string is not forwarded to
    the CommandQueue. *)
Theorem comment_stripping :
  (forall line : string,
     exists rest : string,
       line = (strippedLine line ++ rest)%string
       /\ (rest = EmptyString \/ exists r, rest = String ";" r)
       /\ forall c, In c (list_ascii_of_string (strippedLine line)) ->
                    c <> ";"%char)
  /\ strippedLine "G1 X10 ; move" = "G1 X10 "
  /\ strippedLine ";comment" = EmptyString
  /\ (forall b : Bot, queue (snd (on_line ";comment" b)) = queue b).
Proof.
  split; [ | split; [ reflexivity | split; [ reflexivity | ] ] ].
  - intros line. unfold strippedLine.
    destruct (split_first_piece ";"%char line)
      as (piece & pieces & rest & Hsplit & Hs & Hrest & Hfree).
    rewrite Hsplit. simpl. exists rest. auto.
  - intros b. apply on_line_blank. reflexivity.
Qed.

(** C5 (as stated) fails: the blank before the semicolon is kept. *)
Lemma stripping_keeps_trailing_blank :
  strippedLine "G1 X10 ; move" <> "G1 X10".
Proof. vm_compute. discriminate. Qed.

(* ===================================================================== *)
(** ** Streaming a job *)
(* ===================================================================== *)

Lemma lr_turn_line p b line rest e q j c :
  lr b = Some (reader (line :: rest) e) ->
  queue b = Some q -> currentJob b = Some j -> job_fsm j = running ->
  currentLine b = Some c ->
  lr_turn p b =
  mkBot (virtual b)
        (Some (forward (if nonBlank line then [strippedLine line] else []) q))
        (Some j) (Some (reader rest e)) (Some (c + 1)) (numLines b)
        (device b) (port b) (fsm b) (io b) (logger b) (delayed b).
Proof.
  intros Hlr Hq Hj Hrun Hc.
  destruct b as [v q' j' r' c' n d pt f i l t]. simpl in *. subst.
  unfold lr_turn, nonBlank. simpl.
  unfold on_line.
  destruct (String.length (strippedLine line) <=? 0)%nat eqn:Hlen.
  - simpl. unfold forward. simpl. rewrite app_nil_r. destruct q; reflexivity.
  - simpl. cbv [bind lr_call gets modify throw queueCommands currentJob_state ret]. simpl. rewrite Hrun. reflexivity.
Qed.

Lemma forward_forward cs1 cs2 q :
  forward cs2 (forward cs1 q) = forward (cs1 ++ cs2) q.
Proof. unfold forward. simpl. rewrite map_app, app_assoc. reflexivity. Qed.

Lemma forward_nil q : forward [] q = q.
Proof. destruct q. unfold forward. simpl. rewrite app_nil_r. reflexivity. Qed.

Lemma commands_of_cons line rest :
  commands_of (line :: rest)
  = (if nonBlank line then [strippedLine line] else []) ++ commands_of rest.
Proof. unfold commands_of. simpl. destruct (nonBlank line); reflexivity. Qed.

Lemma lr_turns_S n p b : lr_turns (S n) p b = lr_turns n p (lr_turn p b).
Proof. reflexivity. Qed.

Lemma lr_turns_lines p lines : forall b e q j c,
  lr b = Some (reader lines e) ->
  queue b = Some q -> currentJob b = Some j -> job_fsm j = running ->
  currentLine b = Some c ->
  lr_turns (List.length lines) p b =
  mkBot (virtual b) (Some (forward (commands_of lines) q)) (Some j)
        (Some (reader [] e)) (Some (c + List.length lines)) (numLines b)
        (device b) (port b) (fsm b) (io b) (logger b) (delayed b).
Proof.
  induction lines as [| line rest IH]; intros b e q j c Hlr Hq Hj Hrun Hc.
  - cbn [List.length lr_turns]. rewrite forward_nil, Nat.add_0_r.
    rewrite <- Hlr, <- Hq, <- Hj, <- Hc. destruct b; reflexivity.
  - cbn [List.length]. rewrite lr_turns_S.
    rewrite (lr_turn_line p b line rest e q j c Hlr Hq Hj Hrun Hc).
    rewrite (IH _ e
               (forward (if nonBlank line then [strippedLine line] else []) q)
               j (c + 1))
      by first [ exact Hrun | reflexivity ].
    cbn [virtual numLines device port fsm io logger delayed].
    rewrite forward_forward, <- commands_of_cons.
    replace (c + 1 + List.length rest) with (c + S (List.length rest)) by lia.
    reflexivity.
Qed.

Lemma lr_turn_end p b j :
  lr b = Some (reader [] false) ->
  fsm b = processingJob ->
  currentJob b = Some j ->
  exists b',
    lr_turn p b = b'
    /\ lr b' = Some (reader [] true)
    /\ queue b' = queue b /\ currentLine b' = currentLine b
    /\ numLines b' = numLines b
    /\ fsm b' = connected
    /\ currentJob b' = Some (Job_stopwatch_stop (Job_complete j)).
Proof.
  intros Hlr Hf Hj.
  destruct b as [v q' j' r' c' n d pt f i l t]. simpl in *. subst.
  eexists. split; [ reflexivity | ]. repeat split.
Qed.

Lemma lr_turns_ended p n : forall b,
  lr b = Some (reader [] true) -> lr_turns n p b = b.
Proof.
  induction n as [| n IH]; intros b Hlr; [ reflexivity | ].
  assert (Hturn : lr_turn p b = b) by (unfold lr_turn; rewrite Hlr; reflexivity).
  simpl. rewrite Hturn. apply IH; assumption.
Qed.

Lemma lr_turns_add p n m b :
  lr_turns (n + m) p b = lr_turns m p (lr_turns n p b).
Proof. revert b. induction n as [| n IH]; intros b; simpl; auto. Qed.

Lemma bind_Ok {A B} (m : M A) (k : A -> M B) (b b' : Bot) (a : A) :
  m b = (Ok a, b') -> bind m k b = k a b'.
Proof. intros H. unfold bind. rewrite H. reflexivity. Qed.

Lemma bind_Throw {A B} (m : M A) (k : A -> M B) (b b' : Bot) (e : Exn) :
  m b = (Throw e, b') -> bind m k b = (Throw e, b').
Proof. intros H. unfold bind. rewrite H. reflexivity. Qed.

Lemma fsm_fire_enter ev t b :
  StateMachine.dispatch (StateMachine.create events) (fsm b) ev
    = StateMachine.Enter t ->
  fsm_fire ev b = (Ok StateMachine.SUCCEEDED, entered ev t b).
Proof. intros H. rewrite fsm_fire_cases, H. reflexivity. Qed.





Lemma lr_turns_idle (path : string) (n : nat) (b : Bot) :
  lr b = None -> lr_turns n path b = b.
Proof.
  intros Hlr. induction n as [| n IH]; [ reflexivity | ].
  rewrite lr_turns_S.
  assert (Hturn : lr_turn path b = b) by (unfold lr_turn; rewrite Hlr; reflexivity).
  rewrite Hturn. exact IH.
Qed.

(** C6, at [startJob] with a file the catalog cannot find.  [start] has
    been fired when the lookup throws; nothing catches the exception and
    [startFail] is never fired, by [startJob] or by anything else in the
    class: the call fails with the machine in [startingJob], and with no
    line reader and nothing pending the machine stays there.  ([detect],
    [connect] and [disconnect] wrap their work in a [try] whose [catch] fires
    the Fail event.) *)
Theorem startJob_failure_parks_machine (env : Env) (job : Job) (b : Bot)
    (e : Exn) :
  fsm b = connected ->
  files_getFile env (fileId job) = Throw e ->
  let b' := entered Ev.start startingJob (set_currentJob (Some job) b) in
  startJob env job b = (Throw e, b')
  /\ fsm b' = startingJob
  /\ (lr b = None ->
      forall (n : nat) (path : string),
        fsm (lr_turns n path b') = startingJob).
Proof.
  intros Hf Hfile. cbv zeta.
  split; [ | split ].
  - unfold startJob.
    erewrite bind_Ok by reflexivity.
    erewrite bind_Ok
      by (apply (fsm_fire_enter Ev.start startingJob); simpl; rewrite Hf;
          reflexivity).
    erewrite bind_Throw by (unfold lift; rewrite Hfile; reflexivity).
    reflexivity.
  - reflexivity.
  - intros Hlr n path. rewrite lr_turns_idle; [ reflexivity | ].
    destruct b; exact Hlr.
Qed.

Lemma startJob_failure_parks_machine_witness :
  fst (startJob Sample.env (Sample.job "file-9") Sample.connected_bot)
    = Throw (Failure "getFile")
  /\ fsm (snd (startJob Sample.env (Sample.job "file-9")
                 Sample.connected_bot)) = startingJob.
Proof.
  destruct (startJob_failure_parks_machine Sample.env (Sample.job "file-9")
              Sample.connected_bot (Failure "getFile") eq_refl eq_refl)
    as (Hstart & Hfsm & _).
  rewrite Hstart. split; [ reflexivity | exact Hfsm ].
Defined.

(** C8, at a file of one line with no line break after it.  The pre-scan
    counts line breaks ([split(...).length - 1]), which is one less than the
    number of lines when the last line is not terminated: the file "G28"
    is counted as 0 lines, and the line reader delivers its one line, which
    is forwarded and leaves the cursor at 1, above the count. *)
Theorem cursor_passes_prescan_count :
  let b1 := snd (startJob Sample.env (Sample.job "file-2")
                   Sample.connected_bot) in
  let b2 := lr_turn "/files/one.gcode" b1 in
  fs_createReadStream Sample.env "/files/one.gcode" = ["G28"]
  /\ numLines b1 = Some 0
  /\ currentLine b1 = Some 0
  /\ numLines b2 = Some 0
  /\ currentLine b2 = Some 1
  /\ option_map entries (queue b2) = Some [Open; Gcode "G28"].
Proof. vm_compute. repeat split. Qed.

(* ===================================================================== *)
(** ** What every operation keeps *)
(* ===================================================================== *)

Section Keeps.

Variable P : Bot -> Prop.

Lemma keeps_ret {A} (a : A) : keeps P (ret a).
Proof. intros b H. exact H. Qed.

Lemma keeps_throw {A} (e : Exn) : keeps P (@throw A e).
Proof. intros b H. exact H. Qed.

Lemma keeps_gets {A} (f : Bot -> A) : keeps P (gets f).
Proof. intros b H. exact H. Qed.

Lemma keeps_lift {A} (r : Outcome A) : keeps P (lift r).
Proof. intros b H. exact H. Qed.

Lemma keeps_bind {A B} (m : M A) (k : A -> M B) :
  keeps P m -> (forall a, keeps P (k a)) -> keeps P (bind m k).
Proof.
  intros Hm Hk b H. unfold bind. specialize (Hm b H).
  destruct (m b) as [[a | e] b']; simpl in *.
  - apply Hk. exact Hm.
  - exact Hm.
Qed.

Lemma keeps_try_catch {A} (m : M A) (h : Exn -> M A) :
  keeps P m -> (forall e, keeps P (h e)) -> keeps P (try_catch m h).
Proof.
  intros Hm Hh b H. unfold try_catch. specialize (Hm b H).
  destruct (m b) as [[a | e] b']; simpl in *.
  - exact Hm.
  - apply Hh. exact Hm.
Qed.

Lemma keeps_unawaited {A} (m : M A) : keeps P m -> keeps P (unawaited m).
Proof. intros Hm b H. apply Hm. exact H. Qed.

Lemma keeps_modify (f : Bot -> Bot) :
  (forall b, P b -> P (f b)) -> keeps P (modify f).
Proof. intros Hf b H. apply Hf. exact H. Qed.

End Keeps.

Lemma last_snoc {A} (l : list A) (x : A) : Js.last (l ++ [x]) = Some x.
Proof.
  induction l as [| y l IH]; [ reflexivity | ].
  simpl. destruct (l ++ [x]) eqn:E.
  - destruct l; discriminate.
  - exact IH.
Qed.

Lemma fsm_fire_in_sync (ev : Ev.Event) : keeps in_sync (fsm_fire ev).
Proof.
  intros b H. rewrite fsm_fire_cases.
  destruct (StateMachine.dispatch _ _ _); simpl.
  - exact H.
  - exact H.
  - unfold in_sync. simpl. apply last_snoc.
Qed.

Ltac keeps_step :=
  match goal with
  | |- keeps _ (bind _ _) => apply keeps_bind; [ | intro ]
  | |- keeps _ (try_catch _ _) => apply keeps_try_catch; [ | intro ]
  | |- keeps _ (unawaited _) => apply keeps_unawaited
  | |- keeps _ (ret _) => apply keeps_ret
  | |- keeps _ (throw _) => apply keeps_throw
  | |- keeps _ (gets _) => apply keeps_gets
  | |- keeps _ (lift _) => apply keeps_lift
  | |- keeps _ (fsm_fire _) => apply fsm_fire_in_sync
  | |- keeps _ (modify _) =>
      apply keeps_modify; let H := fresh in intros ? H; exact H
  | |- keeps _ (if ?c then _ else _) => destruct c
  | |- keeps _ (match ?x with _ => _ end) => destruct x
  end.

Ltac keeps_in_sync := repeat keeps_step.

Lemma queueCommands_in_sync p : keeps in_sync (queueCommands p).
Proof. unfold queueCommands. keeps_in_sync. Qed.

Lemma lr_call_in_sync name f : keeps in_sync (lr_call name f).
Proof. unfold lr_call. keeps_in_sync. Qed.

Lemma detect_in_sync env d : keeps in_sync (detect env d).
Proof. unfold detect. keeps_in_sync. Qed.

Lemma Promise_delay_in_sync ms k : keeps in_sync (Promise_delay ms k).
Proof. unfold Promise_delay. keeps_in_sync. Qed.

Lemma logger_info_in_sync args : keeps in_sync (logger_info args).
Proof. unfold logger_info. keeps_in_sync. Qed.

Ltac keeps_known :=
  first [ apply queueCommands_in_sync | apply lr_call_in_sync
        | apply Promise_delay_in_sync | apply logger_info_in_sync
        | keeps_step ].

Lemma unplug_in_sync : keeps in_sync unplug.
Proof. unfold unplug. repeat keeps_known. Qed.

Lemma connect_in_sync env : keeps in_sync (connect env).
Proof. unfold connect. repeat keeps_known. Qed.

Lemma disconnect_in_sync env : keeps in_sync (disconnect env).
Proof. unfold disconnect. repeat keeps_known. Qed.

Lemma resume_after_in_sync k : keeps in_sync (resume_after k).
Proof. unfold resume_after. repeat keeps_known. Qed.

Lemma on_line_in_sync line : keeps in_sync (on_line line).
Proof. unfold on_line, currentJob_state. repeat keeps_known. Qed.

Lemma on_end_in_sync path : keeps in_sync (on_end path).
Proof. unfold on_end, currentJob_call. repeat keeps_known. Qed.

(** X1.  An observer that keeps the payload of the last [stateChange] it
    received always knows the machine's state: that holds of the Bot as it
    is built, and every lifecycle command, job start, pause, resume, turn of
    the line reader and passing delay keeps it, whether it returns or
    throws. *)
Theorem observers_stay_in_sync :
  in_sync Bot_new
  /\ (forall env command, keeps in_sync (processCommand env command))
  /\ (forall env job, keeps in_sync (startJob env job))
  /\ keeps in_sync pauseJob
  /\ keeps in_sync resumeJob
  /\ (forall path b, in_sync b -> in_sync (lr_turn path b))
  /\ (forall b, in_sync b -> in_sync (delay_passes b)).
Proof.
  split; [ reflexivity | ].
  split.
  { intros env command. unfold processCommand.
    repeat first [ apply detect_in_sync | apply unplug_in_sync
                 | apply connect_in_sync | apply disconnect_in_sync
                 | keeps_known ]. }
  split.
  { intros env job. unfold startJob. repeat keeps_known. }
  split; [ unfold pauseJob; repeat keeps_known | ].
  split; [ unfold resumeJob; repeat keeps_known | ].
  split.
  - intros path b H. unfold lr_turn.
    destruct (lr b) as [r |] eqn:Hlr; [ | exact H ].
    destruct (LineByLineReader._paused r); [ exact H | ].
    destruct (LineByLineReader._lines r) as [| line rest].
    + destruct (LineByLineReader._ended r); [ exact H | ].
      apply on_end_in_sync. exact H.
    + apply on_line_in_sync. exact H.
  - intros b H. unfold delay_passes.
    destruct (delayed b) as [| [ms k] rest]; [ exact H | ].
    apply resume_after_in_sync. exact H.
Qed.

Lemma observers_stay_in_sync_witness :
  in_sync (snd (processCommand Sample.env "connect" Sample.virtual_ready_bot)).
Proof.
  apply (proj1 (proj2 observers_stay_in_sync) Sample.env "connect").
  apply (proj1 (proj2 observers_stay_in_sync) Sample.env "createVirtualBot").
  exact (proj1 observers_stay_in_sync).
Defined.

(* ===================================================================== *)
(** ** Lifecycle commands, case by case *)
(* ===================================================================== *)

Ltac run_bot := cbv - [app]; cbn [app]; cbv - [app].
Ltac run := run_bot; reflexivity.

(** X2.  [createVirtualBot] on a Bot that is not virtual and is
    [unavailable] makes it virtual, installs the spoofed usb device and
    takes the machine through [detecting] to [ready], broadcasting those two
    states; the description returned says [ready], and the queue is left as
    it was. *)
Theorem createVirtualBot_reaches_ready (env : Env) (b : Bot) :
  virtual b = false ->
  fsm b = unavailable ->
  exists b' : Bot,
    processCommand env "createVirtualBot" b = (Ok {| state := "ready" |}, b')
    /\ virtual b' = true
    /\ device b' = Some virtualDevice
    /\ fsm b' = ready
    /\ io b' = io b ++ [stateChange detecting; stateChange ready]
    /\ queue b' = queue b.
Proof.
  intros Hv Hf. destruct b as [v q j r c n d p f i l t].
  simpl in Hv, Hf. subst v f.
  eexists. split; [ run | ].
  simpl. rewrite <- app_assoc. repeat split.
Qed.

Lemma createVirtualBot_reaches_ready_witness :
  fst (processCommand Sample.env "createVirtualBot" Bot_new)
  = Ok {| state := "ready" |}.
Proof.
  destruct (createVirtualBot_reaches_ready Sample.env Bot_new
              eq_refl eq_refl) as (b' & H & _).
  rewrite H. reflexivity.
Defined.

(** X3.  [createVirtualBot] on a Bot that is not virtual and is in any
    state but [unavailable] still sets the virtual flag: [detect] is
    refused, which is logged, and nothing else changes; the state returned
    is the one the Bot was in. *)
Theorem createVirtualBot_elsewhere_only_flips_flag (env : Env) (b : Bot) :
  virtual b = false ->
  fsm b <> unavailable ->
  processCommand env "createVirtualBot" b
  = (Ok (getBot b),
     set_logger
       (logger b ++ [(LogError, [invalid_state_change Ev.detect (fsm b)])])
       (set_virtual true b)).
Proof.
  intros Hv Hf. destruct b as [v q j r c n d p f i l t].
  simpl in Hv, Hf. subst v.
  destruct f; try (exfalso; apply Hf; reflexivity); run.
Qed.

Lemma createVirtualBot_elsewhere_only_flips_flag_witness :
  virtual (snd (processCommand Sample.env "createVirtualBot"
                  Sample.connected_bot)) = true
  /\ fsm (snd (processCommand Sample.env "createVirtualBot"
                 Sample.connected_bot)) = connected.
Proof.
  rewrite (createVirtualBot_elsewhere_only_flips_flag Sample.env
             Sample.connected_bot eq_refl);
    [ split; reflexivity | discriminate ].
Defined.

(** X4.  [destroyVirtualBot] on a virtual Bot never throws, whatever the
    state: the machine ends [unavailable] (broadcast unless it was there
    already), the device is forgotten and the flag cleared; the queue, the
    current job, the line reader and the pending delays are left in
    place. *)
Theorem destroyVirtualBot_from_any_state (env : Env) (b : Bot) :
  virtual b = true ->
  exists b' : Bot,
    processCommand env "destroyVirtualBot" b
      = (Ok {| state := "unavailable" |}, b')
    /\ virtual b' = false
    /\ device b' = None
    /\ fsm b' = unavailable
    /\ io b' = (if State_eqb (fsm b) unavailable then io b
                else io b ++ [stateChange unavailable])
    /\ queue b' = queue b /\ currentJob b' = currentJob b /\ lr b' = lr b
    /\ delayed b' = delayed b.
Proof.
  intros Hv. destruct b as [v q j r c n d p f i l t].
  simpl in Hv. subst v.
  destruct f; (eexists; split; [ run | ]); simpl; repeat split.
Qed.

Lemma destroyVirtualBot_from_any_state_witness :
  fst (processCommand Sample.env "destroyVirtualBot"
         Sample.virtual_ready_bot)
  = Ok {| state := "unavailable" |}.
Proof.
  destruct (destroyVirtualBot_from_any_state Sample.env
              Sample.virtual_ready_bot eq_refl) as (b' & H & _).
  rewrite H. reflexivity.
Defined.

(** X5.  Creating and then destroying the virtual bot, from a Bot that is
    not virtual, is [unavailable] and holds no device, gives the Bot back
    as it was in every field but two, which have grown by exactly three
    entries each: the states broadcast ([detecting], [ready],
    [unavailable]) and the log of those three transitions. *)
Theorem virtual_bot_round_trip (env : Env) (b : Bot) :
  virtual b = false ->
  fsm b = unavailable ->
  device b = None ->
  exists b1 b2 : Bot,
    processCommand env "createVirtualBot" b = (Ok {| state := "ready" |}, b1)
    /\ processCommand env "destroyVirtualBot" b1
       = (Ok {| state := "unavailable" |}, b2)
    /\ b2 = set_logger
              (logger b ++ [transitioned Ev.detect unavailable detecting;
                            transitioned Ev.detectDone detecting ready;
                            transitioned Ev.unplug ready unavailable])
              (set_io (io b ++ [stateChange detecting; stateChange ready;
                                stateChange unavailable]) b).
Proof.
  intros Hv Hf Hd. destruct b as [v q j r c n d p f i l t].
  simpl in Hv, Hf, Hd. subst v f d.
  eexists _, _. split; [ run | ]. split; [ run | ].
  unfold set_logger, set_io. run_bot. rewrite <- !app_assoc. reflexivity.
Qed.

Lemma virtual_bot_round_trip_witness :
  exists b1 b2 : Bot,
    processCommand Sample.env "createVirtualBot" Bot_new
      = (Ok {| state := "ready" |}, b1)
    /\ processCommand Sample.env "destroyVirtualBot" b1
       = (Ok {| state := "unavailable" |}, b2)
    /\ b2 = set_logger
              (logger Bot_new
                 ++ [transitioned Ev.detect unavailable detecting;
                     transitioned Ev.detectDone detecting ready;
                     transitioned Ev.unplug ready unavailable])
              (set_io (io Bot_new
                         ++ [stateChange detecting; stateChange ready;
                             stateChange unavailable]) Bot_new).
Proof.
  exact (virtual_bot_round_trip Sample.env Bot_new eq_refl eq_refl eq_refl).
Defined.

(** X6.  [detect] on an [unavailable] Bot that is not virtual builds a
    fresh, empty CommandQueue whose executor is set up for the Bot's port,
    the configured baud rate and the primer M501, and takes the machine
    through [detecting] to [ready]; the device is not touched. *)
Theorem physical_detect_builds_queue (env : Env) (d : option Device)
    (b : Bot) :
  virtual b = false ->
  fsm b = unavailable ->
  exists b' : Bot,
    detect env d b = (Ok tt, b')
    /\ fsm b' = ready
    /\ queue b'
       = Some {| executor :=
                   {| executor_port := port b;
                      executor_baudrate := config_bot_baudrate env;
                      executor_openPrime := "M501" |};
                 entries := [] |}
    /\ device b' = device b
    /\ io b' = io b ++ [stateChange detecting; stateChange ready].
Proof.
  intros Hv Hf. destruct b as [v q j r c n dv p f i l t].
  simpl in Hv, Hf. subst v f.
  eexists. split; [ run | ].
  simpl. rewrite <- app_assoc. repeat split.
Qed.

Lemma physical_detect_builds_queue_witness :
  fsm (snd (detect Sample.env None Bot_new)) = ready.
Proof.
  destruct (physical_detect_builds_queue Sample.env None Bot_new
              eq_refl eq_refl) as (b' & H & Hf & _).
  rewrite H. exact Hf.
Defined.

(** X7.  [detect] in any state but [unavailable] is refused before its
    work starts: the error is logged and thrown, [detectFail] is not fired,
    and the Bot, its queue and device included, is otherwise unchanged. *)
Theorem detect_elsewhere_is_rejected (env : Env) (d : option Device)
    (b : Bot) :
  fsm b <> unavailable ->
  detect env d b
  = (Throw (Thrown (invalid_state_change Ev.detect (fsm b))),
     set_logger
       (logger b ++ [(LogError, [invalid_state_change Ev.detect (fsm b)])])
       b).
Proof.
  intros Hf. destruct b as [v q j r c n dv p f i l t]. simpl in Hf.
  destruct f; try (exfalso; apply Hf; reflexivity); run.
Qed.

Lemma detect_elsewhere_is_rejected_witness :
  queue (snd (detect Sample.env None Sample.connected_bot))
  = Some Sample.serial_queue.
Proof.
  rewrite (detect_elsewhere_is_rejected Sample.env None
             Sample.connected_bot);
    [ reflexivity | discriminate ].
Defined.

(** X8.  [connect] on a virtual Bot that is [ready]: the command returns
    with the machine in [connecting] and the rest of the connection parked
    on the configured delay; when the delay has passed the machine is
    [connected]. *)
Theorem virtual_connect_waits_then_connects (env : Env) (b : Bot) :
  virtual b = true ->
  fsm b = ready ->
  delayed b = [] ->
  exists b1 : Bot,
    processCommand env "connect" b = (Ok {| state := "connecting" |}, b1)
    /\ delayed b1 = [(config_virtualDelay env, AfterConnectDelay)]
    /\ io b1 = io b ++ [stateChange connecting]
    /\ fsm (delay_passes b1) = connected
    /\ delayed (delay_passes b1) = []
    /\ io (delay_passes b1)
       = io b ++ [stateChange connecting; stateChange connected].
Proof.
  intros Hv Hf Ht. destruct b as [v q j r c n dv p f i l t].
  simpl in Hv, Hf, Ht. subst v f t.
  eexists. split; [ run | ].
  run_bot. rewrite <- ?app_assoc. repeat split.
Qed.

Lemma virtual_connect_waits_then_connects_witness :
  fst (processCommand Sample.env "connect" Sample.virtual_ready_bot)
  = Ok {| state := "connecting" |}.
Proof.
  destruct (virtual_connect_waits_then_connects Sample.env
              Sample.virtual_ready_bot eq_refl eq_refl eq_refl)
    as (b1 & H & _).
  rewrite H. reflexivity.
Defined.

(** X9.  [connect] on a [ready] Bot that is not virtual and has a
    CommandQueue hands the queue the directive to open the channel, behind
    what it holds, and returns with the machine [connected]; nothing is
    parked. *)
Theorem physical_connect_queues_open (env : Env) (b : Bot)
    (q : CommandQueue) :
  virtual b = false ->
  fsm b = ready ->
  queue b = Some q ->
  exists b1 : Bot,
    processCommand env "connect" b = (Ok {| state := "connected" |}, b1)
    /\ queue b1 = Some {| executor := executor q;
                          entries := entries q ++ [Open] |}
    /\ delayed b1 = delayed b
    /\ io b1 = io b ++ [stateChange connecting; stateChange connected].
Proof.
  intros Hv Hf Hq. destruct b as [v q' j r c n dv p f i l t].
  simpl in Hv, Hf, Hq. subst v f q'.
  eexists. split; [ run | ].
  run_bot. rewrite <- ?app_assoc. repeat split.
Qed.

Lemma physical_connect_queues_open_witness :
  fst (processCommand Sample.env "connect" Sample.ready_bot)
  = Ok {| state := "connected" |}.
Proof.
  destruct (physical_connect_queues_open Sample.env Sample.ready_bot
              Sample.serial_queue eq_refl eq_refl eq_refl) as (b1 & H & _).
  rewrite H. reflexivity.
Defined.

(** X10.  [connect] on a [ready] Bot that is not virtual and has no
    CommandQueue: handing over the open directive fails, the failure is
    caught and [connectFail] takes the machine back to [ready]; the machine
    is not left in [connecting]. *)
Theorem connect_without_queue_falls_back (env : Env) (b : Bot) :
  virtual b = false ->
  fsm b = ready ->
  queue b = None ->
  exists b1 : Bot,
    processCommand env "connect" b = (Ok {| state := "ready" |}, b1)
    /\ fsm b1 = ready
    /\ queue b1 = None
    /\ delayed b1 = delayed b
    /\ io b1 = io b ++ [stateChange connecting; stateChange ready].
Proof.
  intros Hv Hf Hq. destruct b as [v q' j r c n dv p f i l t].
  simpl in Hv, Hf, Hq. subst v f q'.
  eexists. split; [ run | ].
  run_bot. rewrite <- ?app_assoc. repeat split.
Qed.

Lemma connect_without_queue_falls_back_witness :
  fst (processCommand Sample.env "connect" (set_fsm ready Bot_new))
  = Ok {| state := "ready" |}.
Proof.
  destruct (connect_without_queue_falls_back Sample.env
              (set_fsm ready Bot_new) eq_refl eq_refl eq_refl)
    as (b1 & H & _).
  rewrite H. reflexivity.
Defined.

(** X11.  [connect] in any state but [ready] and [connecting] fails twice
    over: [connect] is refused, and so is the [connectFail] of the handler.
    Both errors are logged, the second is thrown, and the Bot is otherwise
    unchanged. *)
Theorem connect_elsewhere_is_rejected (env : Env) (b : Bot) :
  fsm b <> ready ->
  fsm b <> connecting ->
  connect env b
  = (Throw (Thrown (invalid_state_change Ev.connectFail (fsm b))),
     set_logger
       (logger b
          ++ [(LogError, [invalid_state_change Ev.connect (fsm b)]);
              (LogError, [invalid_state_change Ev.connectFail (fsm b)])])
       b).
Proof.
  intros H1 H2. destruct b as [v q' j r c n dv p f i l t]. simpl in H1, H2.
  destruct f; try (exfalso; apply H1; reflexivity);
    try (exfalso; apply H2; reflexivity);
    run_bot; rewrite <- ?app_assoc; reflexivity.
Qed.

Lemma connect_elsewhere_is_rejected_witness :
  fsm (snd (connect Sample.env Bot_new)) = unavailable.
Proof.
  rewrite (connect_elsewhere_is_rejected Sample.env Bot_new);
    [ reflexivity | discriminate | discriminate ].
Defined.

(** X12.  A second [connect] while a virtual Bot is still [connecting]
    undoes the first: its refused [connect] is caught and the handler's
    [connectFail] takes the machine back to [ready]; when the delay of the
    first [connect] has passed, its [connectDone] is refused and the machine
    stays [ready].  The Bot is never [connected]. *)
Theorem second_connect_aborts_first (env : Env) (b : Bot) :
  virtual b = true ->
  fsm b = ready ->
  delayed b = [] ->
  exists b1 b2 : Bot,
    processCommand env "connect" b = (Ok {| state := "connecting" |}, b1)
    /\ processCommand env "connect" b1 = (Ok {| state := "ready" |}, b2)
    /\ delayed b2 = [(config_virtualDelay env, AfterConnectDelay)]
    /\ fsm (delay_passes b2) = ready
    /\ delayed (delay_passes b2) = []
    /\ io (delay_passes b2)
       = io b ++ [stateChange connecting; stateChange ready].
Proof.
  intros Hv Hf Ht. destruct b as [v q j r c n dv p f i l t].
  simpl in Hv, Hf, Ht. subst v f t.
  eexists _, _. split; [ run | ]. split; [ run | ].
  run_bot. rewrite <- ?app_assoc. repeat split.
Qed.

Lemma second_connect_aborts_first_witness :
  exists b1 b2 : Bot,
    processCommand Sample.env "connect" Sample.virtual_ready_bot
      = (Ok {| state := "connecting" |}, b1)
    /\ processCommand Sample.env "connect" b1
       = (Ok {| state := "ready" |}, b2)
    /\ fsm (delay_passes b2) = ready.
Proof.
  destruct (second_connect_aborts_first Sample.env Sample.virtual_ready_bot
              eq_refl eq_refl eq_refl)
    as (b1 & b2 & H1 & H2 & _ & H3 & _).
  exists b1, b2. repeat split; assumption.
Defined.

(** X13.  [disconnect] on a [connected] Bot, virtual or not: the command
    returns with the machine in [disconnecting] and the rest parked on the
    configured delay; when the delay has passed the machine is [ready] and
    the queue is as it was. *)
Theorem disconnect_waits_then_ready (env : Env) (b : Bot) :
  fsm b = connected ->
  delayed b = [] ->
  exists b1 : Bot,
    processCommand env "disconnect" b
      = (Ok {| state := "disconnecting" |}, b1)
    /\ delayed b1 = [(config_virtualDelay env, AfterDisconnectDelay)]
    /\ fsm (delay_passes b1) = ready
    /\ delayed (delay_passes b1) = []
    /\ queue (delay_passes b1) = queue b
    /\ io (delay_passes b1)
       = io b ++ [stateChange disconnecting; stateChange ready].
Proof.
  intros Hf Ht. destruct b as [v q j r c n dv p f i l t].
  simpl in Hf, Ht. subst f t.
  destruct v; (eexists; split; [ run | ]);
    run_bot; rewrite <- ?app_assoc; repeat split.
Qed.

Lemma disconnect_waits_then_ready_witness :
  fst (processCommand Sample.env "disconnect" Sample.connected_bot)
  = Ok {| state := "disconnecting" |}.
Proof.
  destruct (disconnect_waits_then_ready Sample.env Sample.connected_bot
              eq_refl eq_refl) as (b1 & H & _).
  rewrite H. reflexivity.
Defined.

(* ===================================================================== *)
(** ** Pausing, resuming and holding back the line reader *)
(* ===================================================================== *)

(** A paused reader delivers nothing. *)
Lemma lr_turns_paused (path : string) (n : nat) (b : Bot)
    (lines : list string) (e : bool) :
  lr b = Some (paused_reader lines e) -> lr_turns n path b = b.
Proof.
  intros Hlr. induction n as [| n IH]; [ reflexivity | ].
  rewrite lr_turns_S.
  assert (Hturn : lr_turn path b = b)
    by (unfold lr_turn; rewrite Hlr; reflexivity).
  rewrite Hturn. exact IH.
Qed.

Lemma pauseJob_pauses (b : Bot) (lines : list string) (e : bool) :
  fsm b = processingJob ->
  lr b = Some (reader lines e) ->
  exists b' : Bot,
    pauseJob b = (Ok tt, b')
    /\ fsm b' = connected
    /\ lr b' = Some (paused_reader lines e)
    /\ io b' = io b ++ [stateChange stopping; stateChange connected]
    /\ queue b' = queue b /\ currentJob b' = currentJob b
    /\ currentLine b' = currentLine b.
Proof.
  intros Hf Hlr. destruct b as [v q j r c n d p f i l t].
  simpl in Hf, Hlr. subst f r.
  eexists. split; [ run | ].
  split; [ reflexivity | ]. split; [ reflexivity | ].
  split; [ simpl; rewrite <- app_assoc; reflexivity | ].
  repeat split.
Qed.

Lemma resumeJob_resumes (b : Bot) (lines : list string) (e : bool) :
  fsm b = connected ->
  lr b = Some (paused_reader lines e) ->
  exists b' : Bot,
    resumeJob b = (Ok tt, b')
    /\ fsm b' = processingJob
    /\ lr b' = Some (reader lines e)
    /\ queue b' = queue b /\ currentJob b' = currentJob b
    /\ currentLine b' = currentLine b.
Proof.
  intros Hf Hlr. destruct b as [v q j r c n d p f i l t].
  simpl in Hf, Hlr. subst f r.
  eexists. split; [ run | ]. repeat split.
Qed.

(** The line handler run in one go is its two halves one after the
    other. *)
Lemma on_line_in_two_halves (line : string) (b : Bot) :
  on_line line b
  = (r <- on_line_begin line ;;
     match r with
     | Some command => on_line_finish command
     | None => ret tt
     end) b.
Proof.
  unfold on_line, on_line_begin, on_line_finish.
  destruct b as [v q j [r |] c n d p f i l t]; [ | reflexivity ].
  destruct (String.length (strippedLine line) <=? 0)%nat eqn:Hlen;
    cbv - [app strippedLine String.length Nat.leb Nat.add];
    rewrite ?Hlen; reflexivity.
Qed.

(** X14.  What [pauseJob] does to the line reader while a job is
    processed depends on where it lands.  Between two lines, when the
    reader is not paused (a line handler keeps it paused from its start to
    its end, so none is waiting): the machine goes through [stopping] to
    [connected], the reader is paused with its unread lines kept, the queue,
    the job and the cursor are untouched, and however many turns the reader
    is given afterwards, it delivers nothing.  Inside a line handler that
    waits in its delay with a command in hand: [pauseJob] succeeds all the
    same, but when the delay has passed the handler hands its command to the
    queue and, if the job is still in its running state, releases the
    reader again with the machine [connected]; the reader stays paused only
    when the job has left its running state. *)
Theorem pauseJob_holds_the_reader (b : Bot) (lines : list string)
    (e : bool) :
  fsm b = processingJob ->
  lr b = Some (reader lines e) ->
  (exists b' : Bot,
     pauseJob b = (Ok tt, b')
     /\ fsm b' = connected
     /\ lr b' = Some (paused_reader lines e)
     /\ io b' = io b ++ [stateChange stopping; stateChange connected]
     /\ queue b' = queue b /\ currentJob b' = currentJob b
     /\ currentLine b' = currentLine b
     /\ forall (n : nat) (path : string), lr_turns n path b' = b')
  /\ (forall (line : string) (q : CommandQueue) (j : Job),
        nonBlank line = true ->
        queue b = Some q ->
        currentJob b = Some j ->
        exists b1 b2 b3 : Bot,
          on_line_begin line b = (Ok (Some (strippedLine line)), b1)
          /\ lr b1 = Some (paused_reader lines e)
          /\ pauseJob b1 = (Ok tt, b2)
          /\ fsm b2 = connected
          /\ lr b2 = Some (paused_reader lines e)
          /\ on_line_finish (strippedLine line) b2 = (Ok tt, b3)
          /\ fsm b3 = connected
          /\ queue b3 = Some (forward [strippedLine line] q)
          /\ lr b3 = Some (match job_fsm j with
                           | running => reader lines e
                           | _ => paused_reader lines e
                           end)).
Proof.
  intros Hf Hlr. split.
  - destruct (pauseJob_pauses b lines e Hf Hlr)
      as (b' & Hp & Hf' & Hlr' & Hio & Hq & Hj & Hc).
    exists b'. repeat split; try assumption.
    intros n path. apply (lr_turns_paused path n b' lines e Hlr').
  - intros line q j Hcmd Hq Hj.
    destruct b as [v q' j' r c n d p f i l t].
    simpl in Hf, Hlr, Hq, Hj. subst f r q' j'.
    unfold nonBlank in Hcmd. apply negb_true_iff in Hcmd.
    unfold on_line_begin.
    cbv - [app strippedLine String.length Nat.leb Nat.add]. rewrite Hcmd.
    destruct j as [fid st sw].
    destruct st;
      (eexists _, _, _; split; [ reflexivity | ];
       split; [ reflexivity | ];
       split; [ cbv - [app strippedLine]; reflexivity | ];
       split; [ reflexivity | ]; split; [ reflexivity | ];
       split; [ cbv - [app strippedLine]; reflexivity | ];
       repeat split).
Qed.

Lemma pauseJob_holds_the_reader_witness :
  (exists b' : Bot,
     pauseJob Sample.processing_bot = (Ok tt, b')
     /\ fsm b' = connected
     /\ forall (n : nat) (path : string), lr_turns n path b' = b')
  /\ (exists b1 b2 b3 : Bot,
        on_line_begin "G28" Sample.processing_bot = (Ok (Some "G28"), b1)
        /\ pauseJob b1 = (Ok tt, b2)
        /\ on_line_finish "G28" b2 = (Ok tt, b3)
        /\ fsm b3 = connected
        /\ option_map LineByLineReader._paused (lr b3) = Some false).
Proof.
  destruct (pauseJob_holds_the_reader Sample.processing_bot
              ["G28"; "; home first"; "G1 X10 ; move"; EmptyString; "M84"]
              false eq_refl eq_refl)
    as ((b' & Hp & Hf & _ & _ & _ & _ & _ & Hidle) & Hinside).
  split.
  - exists b'. repeat split; assumption.
  - destruct (Hinside "G28" Sample.serial_queue (Sample.job "file-1")
                eq_refl eq_refl eq_refl)
      as (b1 & b2 & b3 & H1 & _ & H2 & _ & _ & H3 & Hf3 & _ & Hlr3).
    exists b1, b2, b3. repeat split; try assumption.
    rewrite Hlr3. reflexivity.
Defined.

(** X15.  [pauseJob] followed by [resumeJob], issued between two lines
    when the line reader is not paused (so that no line handler is
    waiting), gives the Bot back as it was while processing the job, line
    reader and unread lines included, in every field but two, which have
    grown by exactly four entries each: the states broadcast on the way
    ([stopping], [connected], [startingJob], [processingJob]) and the log
    of those four transitions. *)
Theorem pause_resume_round_trip (b : Bot) (lines : list string) (e : bool) :
  fsm b = processingJob ->
  lr b = Some (reader lines e) ->
  exists b1 b2 : Bot,
    pauseJob b = (Ok tt, b1)
    /\ resumeJob b1 = (Ok tt, b2)
    /\ b2 = set_logger
              (logger b
                 ++ [transitioned Ev.stop processingJob stopping;
                     transitioned Ev.stopDone stopping connected;
                     transitioned Ev.start connected startingJob;
                     transitioned Ev.startDone startingJob processingJob])
              (set_io (io b ++ [stateChange stopping; stateChange connected;
                                stateChange startingJob;
                                stateChange processingJob]) b).
Proof.
  intros Hf Hlr. destruct b as [v q j r c n d p f i l t].
  simpl in Hf, Hlr. subst f r.
  eexists _, _. split; [ run | ]. split; [ run | ].
  unfold set_logger, set_io. run_bot. rewrite <- !app_assoc. reflexivity.
Qed.

Lemma pause_resume_round_trip_witness :
  exists b1 b2 : Bot,
    pauseJob Sample.processing_bot = (Ok tt, b1)
    /\ resumeJob b1 = (Ok tt, b2)
    /\ b2 = set_logger
              (logger Sample.processing_bot
                 ++ [transitioned Ev.stop processingJob stopping;
                     transitioned Ev.stopDone stopping connected;
                     transitioned Ev.start connected startingJob;
                     transitioned Ev.startDone startingJob processingJob])
              (set_io (io Sample.processing_bot
                         ++ [stateChange stopping; stateChange connected;
                             stateChange startingJob;
                             stateChange processingJob])
                 Sample.processing_bot).
Proof.
  exact (pause_resume_round_trip Sample.processing_bot
           ["G28"; "; home first"; "G1 X10 ; move"; EmptyString; "M84"]
           false eq_refl eq_refl).
Defined.

(** X16.  [resumeJob] on a [connected] Bot that has no line reader (no job
    was started, or the reader was let go) fires [start] and then fails on
    the missing reader: a TypeError is thrown and the machine is left in
    [startingJob]. *)
Theorem resumeJob_without_reader_parks (b : Bot) :
  fsm b = connected ->
  lr b = None ->
  resumeJob b
  = (Throw (TypeError "resume"), entered Ev.start startingJob b)
  /\ fsm (entered Ev.start startingJob b) = startingJob.
Proof.
  intros Hf Hlr. destruct b as [v q j r c n d p f i l t].
  simpl in Hf, Hlr. subst f r. split; [ run | reflexivity ].
Qed.

Lemma resumeJob_without_reader_parks_witness :
  fsm (snd (resumeJob Sample.connected_bot)) = startingJob.
Proof.
  destruct (resumeJob_without_reader_parks Sample.connected_bot
              eq_refl eq_refl) as [H Hf].
  rewrite H. exact Hf.
Defined.

(** The turns of a reader over the first lines of what it holds, the job
    running. *)
Lemma lr_turns_some_lines path done : forall b rest e q j c,
  lr b = Some (reader (done ++ rest) e) ->
  queue b = Some q -> currentJob b = Some j -> job_fsm j = running ->
  currentLine b = Some c ->
  lr_turns (List.length done) path b =
  mkBot (virtual b) (Some (forward (commands_of done) q)) (Some j)
        (Some (reader rest e)) (Some (c + List.length done)) (numLines b)
        (device b) (port b) (fsm b) (io b) (logger b) (delayed b).
Proof.
  induction done as [| line done IH];
    intros b rest e q j c Hlr Hq Hj Hrun Hc.
  - cbn [List.length lr_turns app] in *. rewrite forward_nil, Nat.add_0_r.
    rewrite <- Hlr, <- Hq, <- Hj, <- Hc. destruct b; reflexivity.
  - cbn [List.length]. rewrite lr_turns_S.
    rewrite (lr_turn_line path b line (done ++ rest) e q j c
               Hlr Hq Hj Hrun Hc).
    rewrite (IH _ rest e
               (forward (if nonBlank line then [strippedLine line] else []) q)
               j (c + 1))
      by first [ exact Hrun | reflexivity ].
    cbn [virtual numLines device port fsm io logger delayed].
    rewrite forward_forward, <- commands_of_cons.
    replace (c + 1 + List.length done) with (c + S (List.length done))
      by lia.
    reflexivity.
Qed.

Lemma commands_of_app l1 l2 :
  commands_of (l1 ++ l2) = commands_of l1 ++ commands_of l2.
Proof. unfold commands_of. rewrite filter_app, map_app. reflexivity. Qed.

(** X17.  A pause that lands between two lines, when the line reader is
    not paused (so that no line handler is waiting), loses no line and
    repeats none.  The reader has delivered the first lines of the file,
    each handler run to its end; the job is paused, the reader is given any
    number of turns, the job is resumed and the reader is given its turns
    for the rest of the file, the job being in its running state
    throughout: while paused the queue and the cursor stand where the first
    lines left them, and at the end the queue holds the commands of the
    whole file, once each and in order, the cursor has counted every line,
    and the machine is [connected]. *)
Theorem pause_loses_no_line (path : string) (b : Bot)
    (done rest : list string) (q : CommandQueue) (j : Job)
    (c idle n : nat) :
  fsm b = processingJob ->
  lr b = Some (reader (done ++ rest) false) ->
  queue b = Some q ->
  currentJob b = Some j ->
  job_fsm j = running ->
  currentLine b = Some c ->
  List.length rest < n ->
  let b1 := lr_turns (List.length done) path b in
  let b2 := lr_turns idle path (snd (pauseJob b1)) in
  let b3 := lr_turns n path (snd (resumeJob b2)) in
  queue b2 = Some (forward (commands_of done) q)
  /\ currentLine b2 = Some (c + List.length done)
  /\ queue b3 = Some (forward (commands_of (done ++ rest)) q)
  /\ currentLine b3 = Some (c + List.length (done ++ rest))
  /\ fsm b3 = connected.
Proof.
  intros Hf Hlr Hq Hj Hrun Hc Hn. cbv zeta.
  rewrite (lr_turns_some_lines path done b rest false q j c
             Hlr Hq Hj Hrun Hc).
  set (b1 := mkBot _ _ _ _ _ _ _ _ _ _ _ _).
  destruct (pauseJob_pauses b1 rest false)
    as (b2 & Hpause & Hf2 & Hlr2 & _ & Hq2 & Hj2 & Hc2);
    [ exact Hf | reflexivity | ].
  rewrite Hpause. cbn [snd].
  rewrite (lr_turns_paused path idle b2 rest false Hlr2).
  split; [ rewrite Hq2; reflexivity | ].
  split; [ rewrite Hc2; reflexivity | ].
  destruct (resumeJob_resumes b2 rest false Hf2 Hlr2)
    as (b3 & Hresume & Hf3 & Hlr3 & Hq3 & Hj3 & Hc3).
  rewrite Hresume. cbn [snd].
  rewrite Hq2 in Hq3. rewrite Hj2 in Hj3. rewrite Hc2 in Hc3.
  cbn [queue currentJob currentLine] in Hq3, Hj3, Hc3.
  replace n with (List.length rest + S (n - S (List.length rest))) by lia.
  rewrite lr_turns_add.
  rewrite (lr_turns_lines path rest b3 false
             (forward (commands_of done) q) j (c + List.length done)
             Hlr3 Hq3 Hj3 Hrun Hc3).
  rewrite lr_turns_S.
  match goal with
  | |- context [lr_turn path ?x] =>
      destruct (lr_turn_end path x j eq_refl Hf3 eq_refl)
        as (b4 & -> & Hlr4 & Hq4 & Hc4 & _ & Hf4 & _)
  end.
  rewrite (lr_turns_ended path _ b4 Hlr4).
  rewrite Hq4, Hc4, Hf4. cbn [queue currentLine].
  rewrite forward_forward, commands_of_app, length_app, Nat.add_assoc.
  repeat split.
Qed.

Lemma pause_loses_no_line_witness :
  let b1 := lr_turns 2 "/files/job.gcode" Sample.processing_bot in
  let b2 := lr_turns 7 "/files/job.gcode" (snd (pauseJob b1)) in
  let b3 := lr_turns 4 "/files/job.gcode" (snd (resumeJob b2)) in
  option_map entries (queue b2) = Some [Open; Gcode "G28"]
  /\ option_map entries (queue b3)
     = Some [Open; Gcode "G28"; Gcode "G1 X10 "; Gcode "M84"]
  /\ currentLine b3 = Some 5.
Proof.
  destruct (pause_loses_no_line "/files/job.gcode" Sample.processing_bot
              ["G28"; "; home first"] ["G1 X10 ; move"; EmptyString; "M84"]
              Sample.serial_queue (Sample.job "file-1") 0 7 4
              eq_refl eq_refl eq_refl eq_refl eq_refl eq_refl)
    as (H2 & _ & H3 & H4 & _); [ simpl; lia | ].
  cbv zeta. cbn [List.length] in H2, H3, H4.
  rewrite H2, H3, H4. repeat split.
Defined.

Lemma lr_turn_blank path b line rest e :
  lr b = Some (reader (line :: rest) e) ->
  nonBlank line = false ->
  lr_turn path b =
  set_lr (Some (reader rest e))
    (set_currentLine (option_map (fun n => n + 1) (currentLine b)) b).
Proof.
  intros Hlr Hblank.
  destruct b as [v q j r c n d pt f i l t]. simpl in Hlr. subst r.
  unfold nonBlank in Hblank. apply negb_false_iff in Hblank.
  unfold lr_turn. simpl. unfold on_line. rewrite Hblank. reflexivity.
Qed.

Lemma lr_turn_no_queue path b line rest e :
  lr b = Some (reader (line :: rest) e) ->
  nonBlank line = true ->
  queue b = None ->
  lr_turn path b =
  set_lr (Some (paused_reader rest e))
    (set_currentLine (option_map (fun n => n + 1) (currentLine b)) b).
Proof.
  intros Hlr Hcmd Hq.
  destruct b as [v q j r c n d pt f i l t]. simpl in Hlr, Hq. subst r q.
  unfold nonBlank in Hcmd. apply negb_true_iff in Hcmd.
  unfold lr_turn. simpl. unfold on_line. rewrite Hcmd. reflexivity.
Qed.

Lemma lr_turn_command path b line rest e q :
  lr b = Some (reader (line :: rest) e) ->
  nonBlank line = true ->
  queue b = Some q ->
  lr_turn path b =
  set_queue (Some (forward [strippedLine line] q))
    (set_lr (Some (match option_map job_fsm (currentJob b) with
                   | Some running => reader rest e
                   | _ => paused_reader rest e
                   end))
       (set_currentLine (option_map (fun n => n + 1) (currentLine b)) b)).
Proof.
  intros Hlr Hcmd Hq.
  destruct b as [v q' j r c n d pt f i l t]. simpl in Hlr, Hq.
  subst r q'.
  unfold nonBlank in Hcmd. apply negb_true_iff in Hcmd.
  unfold lr_turn. simpl. unfold on_line. rewrite Hcmd.
  destruct j as [[fid st sw] |]; [ destruct st | ]; reflexivity.
Qed.

Lemma lr_turn_held path b line rest e q j :
  lr b = Some (reader (line :: rest) e) ->
  nonBlank line = true ->
  queue b = Some q ->
  currentJob b = Some j ->
  job_fsm j <> running ->
  lr_turn path b =
  set_queue (Some (forward [strippedLine line] q))
    (set_lr (Some (paused_reader rest e))
       (set_currentLine (option_map (fun n => n + 1) (currentLine b)) b)).
Proof.
  intros Hlr Hcmd Hq Hj Hrun.
  rewrite (lr_turn_command path b line rest e q Hlr Hcmd Hq), Hj.
  destruct j as [fid st sw]. simpl in *.
  destruct st; try reflexivity. exfalso. apply Hrun. reflexivity.
Qed.

(** Blank lines are passed over whatever the job and the queue are. *)
Lemma lr_turns_blanks path blanks : forall b tail e c,
  lr b = Some (reader (blanks ++ tail) e) ->
  currentLine b = Some c ->
  Forall (fun line => nonBlank line = false) blanks ->
  lr_turns (List.length blanks) path b =
  set_lr (Some (reader tail e))
    (set_currentLine (Some (c + List.length blanks)) b).
Proof.
  induction blanks as [| line blanks IH]; intros b tail e c Hlr Hc Hall.
  - simpl. rewrite Nat.add_0_r, <- Hc.
    destruct b; simpl in *; subst; reflexivity.
  - inversion Hall as [| x xs Hline Hrest]; subst.
    cbn [List.length]. rewrite lr_turns_S.
    rewrite (lr_turn_blank path b line (blanks ++ tail) e Hlr Hline).
    rewrite (IH _ tail e (c + 1)); [ | reflexivity | | exact Hrest ].
    + destruct b; simpl in *.
      replace (c + 1 + List.length blanks) with (c + S (List.length blanks))
        by lia.
      reflexivity.
    + destruct b; simpl in *. rewrite Hc. reflexivity.
Qed.

(** X18.  The reader is only released while the job is running.  When the
    job is in any other state, the reader passes over the blank and
    comment-only lines ahead, hands the first command to the queue, counts
    it, and then stays paused with the rest of the file unread, however many
    turns it is given. *)
Theorem stream_waits_for_running_job (path : string) (b : Bot)
    (blanks rest : list string) (line : string) (e : bool)
    (q : CommandQueue) (j : Job) (c n : nat) :
  lr b = Some (reader (blanks ++ line :: rest) e) ->
  Forall (fun l => nonBlank l = false) blanks ->
  nonBlank line = true ->
  queue b = Some q ->
  currentJob b = Some j ->
  job_fsm j <> running ->
  currentLine b = Some c ->
  List.length blanks < n ->
  lr_turns n path b =
  set_queue (Some (forward [strippedLine line] q))
    (set_lr (Some (paused_reader rest e))
       (set_currentLine (Some (c + List.length blanks + 1)) b)).
Proof.
  intros Hlr Hall Hcmd Hq Hj Hrun Hc Hn.
  replace n with (List.length blanks + S (n - S (List.length blanks))) by lia.
  rewrite lr_turns_add.
  rewrite (lr_turns_blanks path blanks b (line :: rest) e c Hlr Hc Hall).
  rewrite lr_turns_S.
  rewrite (lr_turn_held path _ line rest e q j);
    try assumption; try (destruct b; simpl in *; assumption || reflexivity).
  rewrite (lr_turns_paused path _ _ rest e);
    destruct b; simpl in *; reflexivity.
Qed.

Lemma stream_waits_for_running_job_witness :
  let b :=
    set_currentJob
      (Some {| fileId := "file-1"; job_fsm := paused;
               stopwatch_running := true |})
      Sample.processing_bot in
  option_map entries (queue (lr_turns 9 "/files/job.gcode" b))
    = Some [Open; Gcode "G28"]
  /\ currentLine (lr_turns 9 "/files/job.gcode" b) = Some 1.
Proof.
  cbv zeta.
  rewrite (stream_waits_for_running_job "/files/job.gcode"
             (set_currentJob
                (Some {| fileId := "file-1"; job_fsm := paused;
                         stopwatch_running := true |})
                Sample.processing_bot) []
             ["; home first"; "G1 X10 ; move"; EmptyString; "M84"] "G28"
             false Sample.serial_queue
             {| fileId := "file-1"; job_fsm := paused;
                stopwatch_running := true |} 0 9
             eq_refl (Forall_nil _) eq_refl eq_refl eq_refl);
    [ split; reflexivity | discriminate | reflexivity | simpl; lia ].
Defined.

(** X19.  Without a CommandQueue (a virtual bot is given none by [detect])
    a job stalls at its first command: the reader passes over the blank and
    comment-only lines ahead, the command line is counted, handing it over
    fails, and the reader stays paused with the rest of the file unread;
    nothing else of the Bot changes, so the machine stays where it was. *)
Theorem stream_stalls_without_queue (path : string) (b : Bot)
    (blanks rest : list string) (line : string) (e : bool) (c n : nat) :
  lr b = Some (reader (blanks ++ line :: rest) e) ->
  Forall (fun l => nonBlank l = false) blanks ->
  nonBlank line = true ->
  queue b = None ->
  currentLine b = Some c ->
  List.length blanks < n ->
  lr_turns n path b =
  set_lr (Some (paused_reader rest e))
    (set_currentLine (Some (c + List.length blanks + 1)) b).
Proof.
  intros Hlr Hall Hcmd Hq Hc Hn.
  replace n with (List.length blanks + S (n - S (List.length blanks))) by lia.
  rewrite lr_turns_add.
  rewrite (lr_turns_blanks path blanks b (line :: rest) e c Hlr Hc Hall).
  rewrite lr_turns_S.
  rewrite (lr_turn_no_queue path _ line rest e);
    try assumption; try (destruct b; simpl in *; assumption || reflexivity).
  rewrite (lr_turns_paused path _ _ rest e);
    destruct b; simpl in *; reflexivity.
Qed.

Lemma stream_stalls_without_queue_witness :
  let b := set_queue None Sample.processing_bot in
  fsm (lr_turns 9 "/files/job.gcode" b) = processingJob
  /\ currentLine (lr_turns 9 "/files/job.gcode" b) = Some 1
  /\ queue (lr_turns 9 "/files/job.gcode" b) = None.
Proof.
  cbv zeta.
  rewrite (stream_stalls_without_queue "/files/job.gcode"
             (set_queue None Sample.processing_bot) []
             ["; home first"; "G1 X10 ; move"; EmptyString; "M84"] "G28"
             false 0 9 eq_refl (Forall_nil _) eq_refl eq_refl eq_refl);
    [ repeat split | simpl; lia ].
Defined.

(** X20.  Whatever the Bot, a turn of the line reader moves the cursor by
    nothing or by one, and either leaves the queue as it is or appends one
    command to it; what was queued before is never changed, nor is the
    pre-scanned line count. *)
Theorem turn_advances_by_at_most_one (path : string) (b : Bot) :
  let b' := lr_turn path b in
  (currentLine b' = currentLine b
   \/ currentLine b' = option_map (fun n => n + 1) (currentLine b))
  /\ (queue b' = queue b
      \/ exists (q : CommandQueue) (command : string),
           queue b = Some q /\ queue b' = Some (forward [command] q))
  /\ numLines b' = numLines b.
Proof.
  cbv zeta.
  destruct (lr b) as [[lines pz ended] |] eqn:Hlr.
  2: { unfold lr_turn. rewrite Hlr. auto. }
  destruct pz.
  { unfold lr_turn. rewrite Hlr. simpl. auto. }
  destruct lines as [| line rest].
  - destruct ended.
    { unfold lr_turn. rewrite Hlr. simpl. auto. }
    destruct b as [v q j r c n d p f i l t]. simpl in Hlr. subst r.
    destruct f, j as [[fid st sw] |]; cbv - [app]; auto.
  - fold (reader (line :: rest) ended) in Hlr.
    destruct (nonBlank line) eqn:Hcmd.
    + destruct (queue b) as [q |] eqn:Hq.
      * rewrite (lr_turn_command path b line rest ended q Hlr Hcmd Hq).
        destruct b; simpl in *. subst.
        split; [ auto | ]. split; [ right; eauto | reflexivity ].
      * rewrite (lr_turn_no_queue path b line rest ended Hlr Hcmd Hq).
        destruct b; simpl in *. subst. auto.
    + rewrite (lr_turn_blank path b line rest ended Hlr Hcmd).
      destruct b; simpl in *. auto.
Qed.

(* ===================================================================== *)
(** ** The state table as a whole *)
(* ===================================================================== *)

Lemma fire_all_fsm (evs : list Ev.Event) : forall b1 b2,
  fsm b1 = fsm b2 -> fsm (fire_all evs b1) = fsm (fire_all evs b2).
Proof.
  induction evs as [| ev evs IH]; intros b1 b2 H; [ exact H | ].
  simpl. apply IH. rewrite !fsm_fire_cases, H.
  destruct (StateMachine.dispatch _ _ _); simpl; congruence.
Qed.

(** X21.  No state of the lifecycle is a dead end: from whatever state the
    Bot is in, [unplug] and then the events of a fixed route take the
    machine to any state one names. *)
Theorem no_state_is_a_dead_end (b : Bot) (s : State) :
  fsm (fire_all (Ev.unplug :: route s) b) = s.
Proof.
  rewrite (fire_all_fsm _ b (set_fsm (fsm b) Bot_new) eq_refl).
  destruct (fsm b), s; reflexivity.
Qed.

(** X22.  The state table is unambiguous: for a state and an event, at most
    one of its edges applies, the wildcard edge of [unplug] included. *)
Theorem edges_do_not_overlap (s : State) (ev : Ev.Event) (e1 e2 : Edge) :
  declared s ev e1 -> declared s ev e2 -> e1 = e2.
Proof.
  intros (Hin1 & Hn1 & Hf1) (Hin2 & Hn2 & Hf2). subst ev.
  simpl in Hin1.
  repeat (destruct Hin1 as [<- | Hin1];
          [ simpl in Hn2, Hf1;
            simpl in Hin2;
            repeat (destruct Hin2 as [<- | Hin2];
                    [ first [ reflexivity | discriminate Hn2
                            | exfalso; simpl in Hf2;
                              destruct Hf1 as [Hf1 | Hf1];
                              destruct Hf2 as [Hf2 | Hf2]; congruence ] | ]);
            contradiction | ]).
  contradiction.
Qed.

Lemma edges_do_not_overlap_witness :
  edge Ev.stopDone (At stopping) connected
  = edge Ev.stopDone (At stopping) connected.
Proof.
  apply (edges_do_not_overlap stopping Ev.stopDone);
    unfold declared; simpl; tauto.
Defined.

(* ===================================================================== *)
(** ** The pre-scan and the line reader *)
(* ===================================================================== *)
Lemma split_breaks_nonempty (other : ascii -> bool) (s : string) :
  Js.split_breaks other s <> [].
Proof.
  destruct s as [| c rest]; simpl; [ discriminate | ].
  destruct (Ascii.eqb c Js.CR).
  - destruct rest as [| c' rest']; [ discriminate | ].
    destruct (Ascii.eqb c' Js.LF); discriminate.
  - destruct (Ascii.eqb c Js.LF || other c); [ discriminate | ].
    destruct (Js.split_breaks other rest); discriminate.
Qed.

Lemma length_cons_first (c : ascii) (l : list string) :
  l <> [] ->
  List.length (match l with
               | seg :: segs => String c seg :: segs
               | [] => [String c EmptyString]
               end) = List.length l.
Proof. destruct l; [ contradiction | reflexivity ]. Qed.

(** Fewer separators, fewer pieces. *)
Lemma split_breaks_le (o1 o2 : ascii -> bool) :
  (forall c, o1 c = true -> o2 c = true) ->
  forall (n : nat) (s : string),
    String.length s <= n ->
    List.length (Js.split_breaks o1 s) <= List.length (Js.split_breaks o2 s).
Proof.
  intros Hsub. induction n as [| n IH]; intros s Hlen.
  - destruct s; [ simpl; lia | simpl in Hlen; lia ].
  - destruct s as [| c rest]; [ simpl; lia | ].
    simpl in Hlen. simpl.
    destruct (Ascii.eqb c Js.CR).
    + destruct rest as [| c' rest']; [ simpl; lia | ].
      simpl in Hlen.
      destruct (Ascii.eqb c' Js.LF); simpl.
      * specialize (IH rest'). lia.
      * specialize (IH (String c' rest')). simpl in IH. lia.
    + destruct (Ascii.eqb c Js.LF) eqn:Hlf; simpl.
      * specialize (IH rest). lia.
      * destruct (o1 c) eqn:H1.
        -- rewrite (Hsub c H1). simpl. specialize (IH rest). lia.
        -- rewrite length_cons_first by apply split_breaks_nonempty.
           destruct (o2 c); simpl.
           ++ specialize (IH rest). lia.
           ++ rewrite length_cons_first by apply split_breaks_nonempty.
              apply IH. lia.
Qed.

Lemma length_removelast_cons {A} (l : list A) : forall x : A,
  List.length (removelast (x :: l)) = List.length l.
Proof.
  induction l as [| y l IH]; intros x; [ reflexivity | ].
  change (removelast (x :: y :: l)) with (x :: removelast (y :: l)).
  cbn [List.length]. f_equal. apply IH.
Qed.

Lemma lines_of_length (chunks : list string) : forall fragment,
  reader_breaks chunks
    <= List.length (LineByLineReader.lines_of fragment chunks)
    <= reader_breaks chunks + 1.
Proof.
  induction chunks as [| chunk chunks IH]; intros fragment.
  - simpl. destruct (String.length fragment =? 0)%nat; simpl; lia.
  - cbn [LineByLineReader.lines_of reader_breaks].
    pose proof (split_breaks_nonempty (fun _ => false) chunk) as Hne.
    fold LineByLineReader.breaks in Hne.
    destruct (LineByLineReader.breaks chunk) as [| p ps] eqn:E;
      [ contradiction | ].
    rewrite length_app.
    pose proof (length_removelast_cons ps (fragment ++ p)%string) as Hrm.
    rewrite Hrm. cbn [List.length].
    specialize (IH (List.last ((fragment ++ p)%string :: ps) EmptyString)).
    lia.
Qed.

Lemma prescan_from (chunks : list string) : forall acc,
  fold_left
    (fun numLines chunk =>
       numLines
       + (List.length (Js.split_breaks (Ascii.eqb Js.NEL) chunk) - 1))
    chunks acc
  = acc + prescan chunks.
Proof.
  unfold prescan.
  induction chunks as [| chunk chunks IH]; intros acc; simpl.
  - lia.
  - rewrite IH. rewrite (IH (List.length _ - 1)). lia.
Qed.

Lemma prescan_cons (chunk : string) (chunks : list string) :
  prescan (chunk :: chunks)
  = (List.length (Js.split_breaks (Ascii.eqb Js.NEL) chunk) - 1)
    + prescan chunks.
Proof. unfold prescan at 1. simpl. apply prescan_from. Qed.

Lemma reader_breaks_le_prescan (chunks : list string) :
  reader_breaks chunks <= prescan chunks.
Proof.
  induction chunks as [| chunk chunks IH]; [ reflexivity | ].
  rewrite prescan_cons. simpl.
  pose proof (split_breaks_le (fun _ => false) (Ascii.eqb Js.NEL)
                (fun c H => False_ind _ (Bool.diff_false_true H))
                (String.length chunk) chunk (le_n _)) as Hle.
  unfold LineByLineReader.breaks. lia.
Qed.

(** X23.  Whatever the file and however it is read in chunks, the lines
    its reader delivers are at most one more than the pre-scan counts: at
    the end of a job the cursor exceeds [numLines] by one at most. *)
Theorem lines_within_one_of_prescan (chunks : list string) :
  List.length (LineByLineReader.lines_of EmptyString chunks)
    <= prescan chunks + 1.
Proof.
  pose proof (lines_of_length chunks EmptyString) as [Hlo Hhi].
  pose proof (reader_breaks_le_prescan chunks) as Hle.
  lia.
Qed.

(* ===================================================================== *)
(** ** What [validateReply] accepts *)
(* ===================================================================== *)

Lemma split_single (sep : ascii) (s seg : string) :
  Js.split sep s = [seg] -> s = seg.
Proof.
  revert seg. induction s as [| a s IH]; intros seg H; simpl in H.
  - congruence.
  - destruct (Ascii.eqb a sep).
    + pose proof (split_nonempty sep s) as Hne.
      destruct (Js.split sep s); [ contradiction | discriminate H ].
    + destruct (Js.split sep s) as [| seg' segs'] eqn:E.
      * exfalso. apply (split_nonempty sep s). exact E.
      * injection H as <- ->. f_equal. apply IH. reflexivity.
Qed.

Lemma split_two (sep : ascii) (p t : string) :
  exists x y l, Js.split sep (p ++ String sep t)%string = x :: y :: l.
Proof.
  induction p as [| a p IH]; simpl.
  - rewrite Ascii.eqb_refl.
    destruct (Js.split sep t) as [| y l] eqn:E.
    + exfalso. apply (split_nonempty sep t). exact E.
    + eauto.
  - destruct IH as (x & y & l & ->).
    destruct (Ascii.eqb a sep); eauto.
Qed.

Lemma last_split_cons (sep a : ascii) (s : string) :
  Js.last (Js.split sep (String a s)) =
  if Ascii.eqb a sep then Js.last (Js.split sep s)
  else match Js.split sep s with
       | [seg] => Some (String a seg)
       | _ => Js.last (Js.split sep s)
       end.
Proof.
  simpl. destruct (Ascii.eqb a sep).
  - destruct (Js.split sep s) eqn:E; [ | reflexivity ].
    exfalso. apply (split_nonempty sep s). exact E.
  - destruct (Js.split sep s) as [| seg [| seg' segs]] eqn:E; try reflexivity.
    exfalso. apply (split_nonempty sep s). exact E.
Qed.

(** X24.  [validateReply] accepts exactly the replies that are [ok] or end
    in a line feed followed by [ok], nothing after it. *)
Theorem validateReply_accepts (command : Payload) (reply : string) :
  validateReply command reply = true
  <-> reply = "ok"
      \/ exists before : string,
           reply = (before ++ String Js.LF "ok")%string.
Proof.
  unfold validateReply, Js.strict_eq. split.
  - induction reply as [| a s IH]; intros H.
    + discriminate H.
    + rewrite last_split_cons in H.
      destruct (Ascii.eqb a Js.LF) eqn:Ha.
      * apply Ascii.eqb_eq in Ha. subst a. right.
        destruct (IH H) as [-> | (p & ->)].
        -- exists EmptyString. reflexivity.
        -- exists (String Js.LF p). reflexivity.
      * destruct (Js.split Js.LF s) as [| seg [| seg' segs]] eqn:E.
        -- exfalso. apply (split_nonempty Js.LF s). exact E.
        -- apply split_single in E. subst seg.
           apply String.eqb_eq in H. left. exact H.
        -- destruct (IH H) as [-> | (p & ->)].
           ++ discriminate E.
           ++ right. exists (String a p). reflexivity.
  - intros [-> | (p & ->)]; [ reflexivity | ].
    induction p as [| a p IH].
    + reflexivity.
    + change ((String a p ++ String Js.LF "ok")%string)
        with (String a (p ++ String Js.LF "ok")%string).
      rewrite last_split_cons.
      destruct (Ascii.eqb a Js.LF); [ exact IH | ].
      destruct (split_two Js.LF p "ok") as (x & y & l & E).
      rewrite E in *. exact IH.
Qed.

Lemma validateReply_accepts_witness :
  validateReply Open ("T:200" ++ String Js.LF "ok")%string = true.
Proof.
  apply (proj2 (validateReply_accepts Open ("T:200" ++ String Js.LF "ok")%string)).
  right. exists "T:200". reflexivity.
Defined.

(* ===================================================================== *)
(** ** The usb scanner *)
(* ===================================================================== *)

Lemma verifyVidPid_configured cfg d b :
  configured cfg d ->
  verifyVidPid cfg d b = (Ok true, set_device (Some d) b).
Proof.
  intros [Hv Hp]. unfold verifyVidPid. rewrite Hv, Hp, !N.eqb_refl.
  reflexivity.
Qed.

Lemma verifyVidPid_other cfg d b :
  ~ configured cfg d -> verifyVidPid cfg d b = (Ok false, b).
Proof.
  intros Hno. unfold verifyVidPid.
  destruct (N.eqb_spec (idVendor (deviceDescriptor d)) (config_bot_vid cfg));
    [ | reflexivity ].
  destruct (N.eqb_spec (idProduct (deviceDescriptor d)) (config_bot_pid cfg));
    [ | reflexivity ].
  exfalso. apply Hno. split; assumption.
Qed.

Lemma scan_ports_first d before found after :
  Forall (other_port d) before ->
  port_of d found ->
  scan_ports d (before ++ found :: after)
  = (Resolved true, Some (comName found)).
Proof.
  intros Hbefore (vendor & product & Hv & Hp & Hvid & Hpid).
  induction Hbefore as [| x before (v & Hxv & Hx) _ IH]; simpl.
  - rewrite Hv, Hvid, Hp, Hpid. reflexivity.
  - rewrite Hxv. destruct Hx as [Hx | (pr & Hxp & Hx)].
    + rewrite Hx. exact IH.
    + rewrite Hxp, Hx. destruct (id_is _ v); exact IH.
Qed.

Lemma scan_ports_none d ports :
  Forall (other_port d) ports -> scan_ports d ports = (Rejected false, None).
Proof.
  intros Hall.
  induction Hall as [| x ports (v & Hxv & Hx) _ IH]; simpl; [ reflexivity | ].
  rewrite Hxv. destruct Hx as [Hx | (pr & Hxp & Hx)].
  - rewrite Hx. exact IH.
  - rewrite Hxp, Hx. destruct (id_is _ v); exact IH.
Qed.

(** X25.  A usb device whose identifiers are not the configured ones is
    ignored: neither its attachment nor its detachment changes the Bot. *)
Theorem unconfigured_device_is_ignored (env : Env) (cfg : UsbConfig)
    (ports : list PortInfo) (d : Device) (b : Bot) :
  ~ configured cfg d ->
  usb_on_attach env cfg ports d b = b /\ usb_on_detach cfg d b = b.
Proof.
  intros Hno. unfold usb_on_attach, usb_on_detach.
  rewrite (verifyVidPid_other cfg d b Hno). split; reflexivity.
Qed.

(** X26.  When the configured device is attached to an [unavailable] Bot
    that is not virtual, and the serial ports listed before the first one
    that reports the device's identifiers all report other identifiers, the
    Bot records the device, takes that first port, builds its CommandQueue
    for it and ends [ready]. *)
Theorem attach_takes_first_matching_port (env : Env) (cfg : UsbConfig)
    (before after : list PortInfo) (found : PortInfo) (d : Device)
    (b : Bot) :
  configured cfg d ->
  Forall (other_port d) before ->
  port_of d found ->
  virtual b = false ->
  fsm b = unavailable ->
  let b' := usb_on_attach env cfg (before ++ found :: after) d b in
  device b' = Some d
  /\ port b' = Some (comName found)
  /\ fsm b' = ready
  /\ queue b'
     = Some {| executor :=
                 {| executor_port := Some (comName found);
                    executor_baudrate := config_bot_baudrate env;
                    executor_openPrime := "M501" |};
               entries := [] |}
  /\ io b' = io b ++ [stateChange detecting; stateChange ready].
Proof.
  intros Hcfg Hbefore Hport Hv Hf. cbv zeta. unfold usb_on_attach.
  rewrite (verifyVidPid_configured cfg d b Hcfg).
  unfold getPort. cbn [device set_device].
  rewrite (scan_ports_first d before found after Hbefore Hport).
  destruct b as [v q j r c n dv p f i l t]. simpl in Hv, Hf. subst v f.
  run_bot. rewrite <- app_assoc. repeat split.
Qed.

(** X27.  When the configured device is attached and every serial port
    reports other identifiers, the Bot records the device and nothing else:
    no port is taken, no queue is built and the machine does not move. *)
Theorem attach_without_port_only_records_device (env : Env)
    (cfg : UsbConfig) (ports : list PortInfo) (d : Device) (b : Bot) :
  configured cfg d ->
  Forall (other_port d) ports ->
  usb_on_attach env cfg ports d b = set_device (Some d) b.
Proof.
  intros Hcfg Hall. unfold usb_on_attach.
  rewrite (verifyVidPid_configured cfg d b Hcfg).
  unfold getPort. cbn [device set_device].
  rewrite (scan_ports_none d ports Hall). reflexivity.
Qed.

(** X28.  When the configured device is detached the machine ends
    [unavailable] from whatever state it was in (broadcast unless it was
    there already) and the device is forgotten; the queue, the port, the
    current job and the line reader are left in place. *)
Theorem detach_unplugs_from_any_state (cfg : UsbConfig) (d : Device)
    (b : Bot) :
  configured cfg d ->
  let b' := usb_on_detach cfg d b in
  fsm b' = unavailable
  /\ device b' = None
  /\ io b' = (if State_eqb (fsm b) unavailable then io b
              else io b ++ [stateChange unavailable])
  /\ queue b' = queue b /\ port b' = port b
  /\ currentJob b' = currentJob b /\ lr b' = lr b.
Proof.
  intros Hcfg. cbv zeta. unfold usb_on_detach.
  rewrite (verifyVidPid_configured cfg d b Hcfg).
  destruct b as [v q j r c n dv p f i l t].
  destruct f; run_bot; repeat split.
Qed.

Lemma configured_virtualDevice : configured Sample.usb virtualDevice.
Proof. split; reflexivity. Defined.

Lemma other_port_ftdi : other_port virtualDevice Sample.ftdi_port.
Proof. exists "0x0403". split; [ reflexivity | left; reflexivity ]. Defined.

Lemma port_of_bot_port : port_of virtualDevice Sample.bot_port.
Proof. exists "0x16c0", "0x0483". repeat split. Defined.

Lemma unconfigured_device_is_ignored_witness :
  usb_on_attach Sample.env Sample.usb [Sample.bot_port] Sample.other_device
    Bot_new = Bot_new
  /\ usb_on_detach Sample.usb Sample.other_device Sample.connected_bot
     = Sample.connected_bot.
Proof.
  split.
  - apply (unconfigured_device_is_ignored Sample.env Sample.usb
             [Sample.bot_port] Sample.other_device Bot_new).
    intros [H _]. discriminate H.
  - apply (unconfigured_device_is_ignored Sample.env Sample.usb
             [] Sample.other_device Sample.connected_bot).
    intros [H _]. discriminate H.
Defined.

Lemma attach_takes_first_matching_port_witness :
  port (usb_on_attach Sample.env Sample.usb
          [Sample.ftdi_port; Sample.bot_port] virtualDevice Bot_new)
  = Some "/dev/ttyACM0"
  /\ fsm (usb_on_attach Sample.env Sample.usb
            [Sample.ftdi_port; Sample.bot_port] virtualDevice Bot_new)
     = ready.
Proof.
  destruct (attach_takes_first_matching_port Sample.env Sample.usb
              [Sample.ftdi_port] [] Sample.bot_port virtualDevice Bot_new
              configured_virtualDevice
              (Forall_cons _ other_port_ftdi (Forall_nil _))
              port_of_bot_port eq_refl eq_refl)
    as (_ & Hport & Hfsm & _).
  split; [ exact Hport | exact Hfsm ].
Defined.

Lemma attach_without_port_only_records_device_witness :
  usb_on_attach Sample.env Sample.usb [Sample.ftdi_port] virtualDevice
    Bot_new
  = set_device (Some virtualDevice) Bot_new.
Proof.
  apply (attach_without_port_only_records_device Sample.env Sample.usb
           [Sample.ftdi_port] virtualDevice Bot_new
           configured_virtualDevice
           (Forall_cons _ other_port_ftdi (Forall_nil _))).
Defined.

Lemma detach_unplugs_from_any_state_witness :
  fsm (usb_on_detach Sample.usb virtualDevice Sample.processing_bot)
  = unavailable.
Proof.
  apply (detach_unplugs_from_any_state Sample.usb virtualDevice
           Sample.processing_bot configured_virtualDevice).
Defined.
Lemma reads_back_all :
  forallb (fun d3 => forallb (fun d2 => forallb (fun d1 =>
    forallb (fun d0 => reads_back_digits d3 d2 d1 d0) digits16)
    digits16) digits16) digits16 = true.
Proof. vm_compute. reflexivity. Qed.

Lemma digit_in (d : N) : (d < 16)%N -> In d digits16.
Proof.
  intros H. unfold digits16. simpl.
  assert (d = 0 \/ d = 1 \/ d = 2 \/ d = 3 \/ d = 4 \/ d = 5 \/ d = 6
          \/ d = 7 \/ d = 8 \/ d = 9 \/ d = 10 \/ d = 11 \/ d = 12
          \/ d = 13 \/ d = 14 \/ d = 15)%N as Hd by lia.
  intuition.
Qed.

(** X29.  The comparison of [getPort] reads a 16-bit identifier back from
    the text a serial port reports for it, [0x] and four hexadecimal
    digits: against such a text it is true for that identifier and for no
    other. *)
Theorem id_is_reads_hex_ids (id n : N) :
  (n < 65536)%N ->
  id_is id (hex_id n) = (id =? n)%N.
Proof.
  intros Hn.
  set (d3 := ((n / 4096) mod 16)%N). set (d2 := ((n / 256) mod 16)%N).
  set (d1 := ((n / 16) mod 16)%N). set (d0 := (n mod 16)%N).
  assert (Hd3 : (d3 < 16)%N) by (apply N.mod_lt; lia).
  assert (Hd2 : (d2 < 16)%N) by (apply N.mod_lt; lia).
  assert (Hd1 : (d1 < 16)%N) by (apply N.mod_lt; lia).
  assert (Hd0 : (d0 < 16)%N) by (apply N.mod_lt; lia).
  assert (Hn' : n = (((d3 * 16 + d2) * 16 + d1) * 16 + d0)%N).
  { subst d3 d2 d1 d0.
    pose proof (N.div_mod n 16 ltac:(lia)) as H0.
    pose proof (N.div_mod (n / 16) 16 ltac:(lia)) as H1.
    pose proof (N.div_mod (n / 256) 16 ltac:(lia)) as H2.
    assert (E1 : (n / 16 / 16 = n / 256)%N)
      by (rewrite N.Div0.div_div; reflexivity).
    assert (E2 : (n / 256 / 16 = n / 4096)%N)
      by (rewrite N.Div0.div_div; reflexivity).
    assert (E3 : (n / 4096 < 16)%N)
      by (apply N.Div0.div_lt_upper_bound; lia).
    rewrite (N.mod_small (n / 4096) 16 E3).
    rewrite E1 in H1. rewrite E2 in H2. lia. }
  pose proof reads_back_all as Hall.
  rewrite forallb_forall in Hall. specialize (Hall d3 (digit_in d3 Hd3)).
  rewrite forallb_forall in Hall. specialize (Hall d2 (digit_in d2 Hd2)).
  rewrite forallb_forall in Hall. specialize (Hall d1 (digit_in d1 Hd1)).
  rewrite forallb_forall in Hall. specialize (Hall d0 (digit_in d0 Hd0)).
  unfold reads_back_digits in Hall. rewrite <- Hn' in Hall.
  unfold reads_back in Hall. unfold id_is.
  destruct (Js.last (Js.split "x" (hex_id n))) as [digits |];
    [ | discriminate Hall ].
  destruct (parseInt16 digits) as [value |]; [ | discriminate Hall ].
  apply Z.eqb_eq in Hall. subst value.
  destruct (N.eqb_spec id n) as [-> | Hne].
  - apply Z.eqb_refl.
  - apply Z.eqb_neq. lia.
Qed.

Lemma id_is_reads_hex_ids_witness :
  id_is 5824 "0x16c0" = true /\ id_is 1155 "0x16c0" = false.
Proof.
  split.
  - apply (id_is_reads_hex_ids 5824 5824). reflexivity.
  - apply (id_is_reads_hex_ids 1155 5824). reflexivity.
Defined.

(* ===================================================================== *)
(** ** One command, one frame *)
(* ===================================================================== *)

Lemma single_line_append (s t : string) :
  single_line s -> single_line t -> single_line (s ++ t)%string.
Proof.
  intros Hs Ht c Hc.
  assert (Happ : forall a b, list_ascii_of_string (a ++ b)%string
                 = list_ascii_of_string a ++ list_ascii_of_string b).
  { clear. induction a as [| x a IH]; intros b; simpl; [ reflexivity | ].
    rewrite IH. reflexivity. }
  rewrite Happ in Hc. apply in_app_or in Hc. destruct Hc; auto.
Qed.

Lemma single_line_empty : single_line EmptyString.
Proof. intros c []. Qed.

Lemma split_breaks_single_line (other : ascii -> bool) :
  forall (n : nat) (s : string),
    String.length s <= n ->
    Forall single_line (Js.split_breaks other s).
Proof.
  induction n as [| n IH]; intros s Hlen.
  - destruct s; [ | simpl in Hlen; lia ].
    constructor; [ apply single_line_empty | constructor ].
  - destruct s as [| c rest].
    { constructor; [ apply single_line_empty | constructor ]. }
    simpl in Hlen. simpl.
    destruct (Ascii.eqb c Js.CR) eqn:Hcr.
    + destruct rest as [| c' rest'].
      * constructor; [ apply single_line_empty | ].
        constructor; [ apply single_line_empty | constructor ].
      * simpl in Hlen. destruct (Ascii.eqb c' Js.LF).
        -- constructor; [ apply single_line_empty | apply IH; lia ].
        -- constructor; [ apply single_line_empty | apply IH; simpl; lia ].
    + destruct (Ascii.eqb c Js.LF) eqn:Hlf; simpl.
      * constructor; [ apply single_line_empty | apply IH; lia ].
      * destruct (other c).
        -- constructor; [ apply single_line_empty | apply IH; lia ].
        -- pose proof (IH rest ltac:(lia)) as Hrest.
           destruct (Js.split_breaks other rest) as [| seg segs].
           ++ constructor; [ | constructor ].
              intros a [<- | []]. split; intros ->.
              ** rewrite Ascii.eqb_refl in Hcr. discriminate.
              ** rewrite Ascii.eqb_refl in Hlf. discriminate.
           ++ inversion Hrest as [| x xs Hseg Hsegs]; subst.
              constructor; [ | exact Hsegs ].
              intros a [<- | Ha]; [ | apply Hseg; exact Ha ].
              split; intros ->.
              ** rewrite Ascii.eqb_refl in Hcr. discriminate.
              ** rewrite Ascii.eqb_refl in Hlf. discriminate.
Qed.

Lemma In_removelast {A} (l : list A) (x : A) :
  In x (removelast l) -> In x l.
Proof.
  induction l as [| y l IH]; [ auto | ].
  destruct l as [| z l]; [ intros [] | ].
  change (removelast (y :: z :: l)) with (y :: removelast (z :: l)).
  intros [-> | H]; [ left; reflexivity | right; apply IH; exact H ].
Qed.

Lemma last_single_line (l : list string) :
  Forall single_line l -> single_line (List.last l EmptyString).
Proof.
  induction 1 as [| x l Hx Hl IH]; [ apply single_line_empty | ].
  destruct l; [ exact Hx | exact IH ].
Qed.

Lemma lines_of_single_line (chunks : list string) : forall fragment,
  single_line fragment ->
  Forall single_line (LineByLineReader.lines_of fragment chunks).
Proof.
  induction chunks as [| chunk chunks IH]; intros fragment Hfrag.
  - simpl. destruct (String.length fragment =? 0)%nat;
      [ constructor | constructor; [ exact Hfrag | constructor ] ].
  - cbn [LineByLineReader.lines_of].
    pose proof (split_breaks_single_line (fun _ => false) (String.length chunk)
                  chunk (le_n _)) as Hpieces.
    fold LineByLineReader.breaks in Hpieces.
    destruct (LineByLineReader.breaks chunk) as [| p ps].
    + simpl. apply IH. apply single_line_empty.
    + inversion Hpieces as [| x xs Hp Hps]; subst.
      assert (Hall : Forall single_line ((fragment ++ p)%string :: ps)).
      { constructor; [ apply single_line_append; assumption | exact Hps ]. }
      apply Forall_app. split.
      * apply Forall_forall. intros x Hx. apply In_removelast in Hx.
        revert x Hx. apply Forall_forall. exact Hall.
      * apply IH. apply last_single_line. exact Hall.
Qed.

Lemma split_framed (s : string) :
  (forall c, In c (list_ascii_of_string s) -> c <> Js.LF) ->
  Js.split Js.LF (expandCode s) = [s; EmptyString].
Proof.
  unfold expandCode.
  induction s as [| a s IH]; intros Hfree; [ reflexivity | ].
  simpl. destruct (Ascii.eqb a Js.LF) eqn:Ha.
  - apply Ascii.eqb_eq in Ha. exfalso. apply (Hfree a); simpl; auto.
  - rewrite IH; [ reflexivity | ]. intros c Hc. apply Hfree. simpl. auto.
Qed.

(** X30.  Whatever the file, a line its reader delivers has no carriage
    return or line feed in it, nor has the command stripped from it: framed
    by [expandCode], the command is one line on the wire, the command
    itself followed by one line feed. *)
Theorem forwarded_command_is_one_frame (chunks : list string)
    (line : string) :
  In line (LineByLineReader.lines_of EmptyString chunks) ->
  single_line (strippedLine line)
  /\ Js.split Js.LF (expandCode (strippedLine line))
     = [strippedLine line; EmptyString].
Proof.
  intros Hin.
  pose proof (lines_of_single_line chunks EmptyString single_line_empty) as Hall.
  rewrite Forall_forall in Hall. specialize (Hall line Hin).
  assert (Hstripped : single_line (strippedLine line)).
  { unfold strippedLine.
    destruct (split_first_piece ";"%char line)
      as (piece & pieces & rest & Hsplit & Hs & _ & _).
    rewrite Hsplit. simpl. intros c Hc. apply Hall. rewrite Hs.
    clear - Hc. induction piece as [| a piece IH]; [ destruct Hc | ].
    simpl in *. destruct Hc as [-> | Hc]; auto. }
  split; [ exact Hstripped | ].
  apply split_framed. intros c Hc. apply (Hstripped c Hc).
Qed.

Lemma forwarded_command_is_one_frame_witness :
  Js.split Js.LF (expandCode (strippedLine "G1 X10 ; move"))
  = ["G1 X10 "; EmptyString].
Proof.
  apply (proj2 (forwarded_command_is_one_frame Sample.job_gcode
                  "G1 X10 ; move" (or_intror (or_intror (or_introl eq_refl))))).
Defined.
